(** * Go-OTP-Login: OTP life cycle, rate limiting and bearer tokens

    A shallow embedding of the request path of [cmd/api]: the Redis
    commands the handlers send, the Lua rate-limit script, the user
    table, and the Go functions built on them.  Every Go function that
    talks to a store is a command tree ([prog]); a command runs
    atomically at the instant the server serves it, so a function is
    run against a list of instants (one per command) and concurrent
    requests are run against a schedule. *)

From Stdlib Require Import ZArith String Ascii List Lia.
From Stdlib Require Import DecimalString DecimalPos DecimalN DecimalZ.
From stdpp Require Import base option gmap strings list.

Local Open Scope string_scope.
Local Open Scope Z_scope.

(** ** Go's [time] package

    An instant is its Unix time in nanoseconds, a [Duration] a number
    of nanoseconds. *)

Module GoTime.
Definition Nanosecond : Z := 1.
Definition Millisecond : Z := 1000000 * Nanosecond.
Definition Second : Z := 1000 * Millisecond.
Definition Minute : Z := 60 * Second.
Definition Hour : Z := 60 * Minute.

(** [t.Truncate(d)]: round down to a multiple of [d]. *)
Definition Truncate (t d : Z) : Z := (t / d) * d.
End GoTime.

Definition int64_max : Z := 9223372036854775807.
Definition int64_min : Z := -9223372036854775808.

(** ** The Redis keyspace and the commands the service uses *)

Module Redis.

(** A key holds a string (here always a decimal counter, kept as the
    integer it denotes) or a hash. *)
Inductive value : Type :=
| VInt (n : Z)
| VHash (h : gmap string string).

(** [expire_at] is the absolute expiry in milliseconds, if any. *)
Record entry : Type := Entry { val : value; expire_at : option Z }.

Inductive error : Type :=
| WRONGTYPE
| ERR_overflow.

Definition error_message (e : error) : string :=
  match e with
  | WRONGTYPE => "WRONGTYPE Operation against a key holding the wrong kind of value"
  | ERR_overflow => "ERR increment or decrement would overflow"
  end.

(** The server clock, [mstime()], from an instant in nanoseconds. *)
Definition mstime (now : Z) : Z := now / GoTime.Millisecond.

(** A key is gone once the clock is past its expiry. *)
Definition expired (ms : Z) (e : entry) : bool :=
  match expire_at e with
  | Some w => w <? ms
  | None => false
  end.

Definition lookup_live (ms : Z) (k : string) (db : gmap string entry) : option entry :=
  match db !! k with
  | Some e => if expired ms e then None else Some e
  | None => None
  end.

Definition EXISTS (ms : Z) (k : string) (db : gmap string entry) : Z :=
  match lookup_live ms k db with
  | Some _ => 1
  | None => 0
  end.

(** [SET key n EX seconds] *)
Definition SET_EX (ms : Z) (k : string) (n seconds : Z) (db : gmap string entry)
  : gmap string entry :=
  <[k := Entry (VInt n) (Some (ms + seconds * 1000))]> db.

(** [INCR key]: a missing key counts from 0; the expiry is kept. *)
Definition INCR (ms : Z) (k : string) (db : gmap string entry)
  : (error + Z) * gmap string entry :=
  match lookup_live ms k db with
  | None => (inr 1, <[k := Entry (VInt 1) None]> db)
  | Some (Entry (VInt n) ex) =>
      if n <? int64_max
      then (inr (n + 1), <[k := Entry (VInt (n + 1)) ex]> db)
      else (inl ERR_overflow, db)
  | Some (Entry (VHash _) _) => (inl WRONGTYPE, db)
  end.

(** [TTL key], in seconds, rounded. *)
Definition TTL (ms : Z) (k : string) (db : gmap string entry) : Z :=
  match lookup_live ms k db with
  | None => -2
  | Some e =>
      match expire_at e with
      | None => -1
      | Some w => (w - ms + 500) / 1000
      end
  end.

(** [HSET key field v]: replies the number of fields added. *)
Definition HSET (ms : Z) (k f v : string) (db : gmap string entry)
  : (error + Z) * gmap string entry :=
  match lookup_live ms k db with
  | None => (inr 1, <[k := Entry (VHash {[f := v]}) None]> db)
  | Some (Entry (VHash h) ex) =>
      (inr (match h !! f with Some _ => 0 | None => 1 end),
       <[k := Entry (VHash (<[f := v]> h)) ex]> db)
  | Some (Entry (VInt _) _) => (inl WRONGTYPE, db)
  end.

(** [EXPIRE key seconds], for a positive number of seconds. *)
Definition EXPIRE (ms : Z) (k : string) (seconds : Z) (db : gmap string entry)
  : bool * gmap string entry :=
  match lookup_live ms k db with
  | None => (false, db)
  | Some e => (true, <[k := Entry (val e) (Some (ms + seconds * 1000))]> db)
  end.

(** [HGETALL key]: a missing key reads as the empty hash. *)
Definition HGETALL (ms : Z) (k : string) (db : gmap string entry)
  : error + gmap string string :=
  match lookup_live ms k db with
  | None => inr ∅
  | Some (Entry (VHash h) _) => inr h
  | Some (Entry (VInt _) _) => inl WRONGTYPE
  end.

(** The Lua script [otpRateLimitScript]; a failing [redis.call]
    aborts the script with its error. *)
Definition otpRateLimitScript (ms : Z) (key : string) (win : Z) (db : gmap string entry)
  : (error + list Z) * gmap string entry :=
  let exists_ := EXISTS ms key db in
  if exists_ =? 0 then
    let db' := SET_EX ms key 1 win db in
    (inr [1; win], db')
  else
    match INCR ms key db with
    | (inl e, db') => (inl e, db')
    | (inr newCount, db') =>
        let ttl := TTL ms key db' in
        (inr [newCount; ttl], db')
    end.

End Redis.

(** ** The [users] table of the migration

    [id bigserial PRIMARY KEY], [created_at timestamp(0) DEFAULT NOW()],
    [phone_number text UNIQUE NOT NULL]. *)

Module Postgres.

Record User : Type := mkUser { ID : Z; CreatedAt : Z; PhoneNumber : string }.

(** [id_seq] is the last value the [bigserial] sequence handed out. *)
Record users_table : Type := Table { rows : list User; id_seq : Z }.

Inductive error : Type :=
| ErrNoRows
| unique_violation.

Definition error_message (e : error) : string :=
  match e with
  | ErrNoRows => "sql: no rows in result set"
  | unique_violation =>
      "pq: duplicate key value violates unique constraint users_phone_number_key"
  end.

Definition has_phone (phone : string) (u : User) : bool :=
  bool_decide (PhoneNumber u = phone).

Definition has_id (id : Z) (u : User) : bool := bool_decide (ID u = id).

(** [SELECT ... FROM users WHERE phone_number = $1], first row. *)
Definition select_by_phone_number (phone : string) (t : users_table) : option User :=
  List.find (has_phone phone) (rows t).

(** [SELECT ... FROM users WHERE id = $1], first row. *)
Definition select_by_id (id : Z) (t : users_table) : option User :=
  List.find (has_id id) (rows t).

(** [timestamp(0)]: rounded to the second. *)
Definition timestamp0 (now : Z) : Z :=
  ((now + GoTime.Second / 2) / GoTime.Second) * GoTime.Second.

(** [INSERT INTO users (phone_number) VALUES ($1) RETURNING id, created_at].
    The sequence advances even when the unique constraint rejects the row. *)
Definition insert_user (now : Z) (phone : string) (t : users_table)
  : (error + Z * Z) * users_table :=
  let id := id_seq t + 1 in
  match select_by_phone_number phone t with
  | Some _ => (inl unique_violation, Table (rows t) id)
  | None =>
      let u := mkUser id (timestamp0 now) phone in
      (inr (id, CreatedAt u), Table (rows t ++ [u]) id)
  end.

End Postgres.

(** ** Commands, command trees and their execution *)

Record world : Type := World {
  cache : gmap string Redis.entry;
  models : Postgres.users_table
}.

(** One round trip to a store, or one reading of the clock. *)
Inductive command : Type -> Type :=
| ScriptRun (key : string) (win : Z) : command (Redis.error + list Z)
| HSet (key field v : string) : command (Redis.error + Z)
| Expire (key : string) (expiration : Z) : command (Redis.error + bool)
| HGetAll (key : string) : command (Redis.error + gmap string string)
| QueryInsert (phone : string) : command (Postgres.error + Z * Z)
| QueryByPhoneNumber (phone : string) : command (Postgres.error + Postgres.User)
| QueryByID (id : Z) : command (Postgres.error + Postgres.User)
| TimeNow : command Z.

(** [exec now c w]: the reply to [c] served at the instant [now], and
    the state it leaves.  go-redis sends a duration as [EXPIRE key seconds]. *)
Definition exec {R : Type} (now : Z) (c : command R) (w : world) : R * world :=
  let ms := Redis.mstime now in
  match c in command R return R * world with
  | ScriptRun key win =>
      let '(r, db) := Redis.otpRateLimitScript ms key win (cache w) in
      (r, World db (models w))
  | HSet key f v =>
      let '(r, db) := Redis.HSET ms key f v (cache w) in
      (r, World db (models w))
  | Expire key d =>
      let '(r, db) := Redis.EXPIRE ms key (d / GoTime.Second) (cache w) in
      (inr r, World db (models w))
  | HGetAll key => (Redis.HGETALL ms key (cache w), w)
  | QueryInsert phone =>
      let '(r, t) := Postgres.insert_user now phone (models w) in
      (r, World (cache w) t)
  | QueryByPhoneNumber phone =>
      (match Postgres.select_by_phone_number phone (models w) with
       | Some u => inr u
       | None => inl Postgres.ErrNoRows
       end, w)
  | QueryByID id =>
      (match Postgres.select_by_id id (models w) with
       | Some u => inr u
       | None => inl Postgres.ErrNoRows
       end, w)
  | TimeNow => (now, w)
  end.

Inductive prog (A : Type) : Type :=
| Ret (a : A)
| Call {R : Type} (c : command R) (k : R -> prog A).

Arguments Ret {A} a.
Arguments Call {A R} c k.

Fixpoint prog_bind {A B : Type} (f : A -> prog B) (p : prog A) : prog B :=
  match p with
  | Ret a => f a
  | Call c k => Call c (fun r => prog_bind f (k r))
  end.

#[export] Instance prog_mret : MRet prog := fun A a => Ret a.
#[export] Instance prog_mbind : MBind prog := fun A B f p => prog_bind f p.

(** [run clk p w]: the commands of [p] are served one after the other,
    the [i]-th of them at the instant [clk i]. *)
Fixpoint run {A : Type} (clk : nat -> Z) (p : prog A) (w : world) : A * world :=
  match p with
  | Ret a => (a, w)
  | Call c k =>
      let '(r, w') := exec (clk O) c w in
      run (fun i => clk (S i)) (k r) w'
  end.

(** The clock that reads [t], then the instants of [ts], then stays. *)
Definition instants (t : Z) (ts : list Z) : nat -> Z :=
  fun i => nth i (t :: ts) (List.last ts t).

(** How many commands of [p] are served in that run. *)
Fixpoint commands_served {A : Type} (clk : nat -> Z) (p : prog A) (w : world) : nat :=
  match p with
  | Ret _ => O
  | Call c k =>
      let '(r, w') := exec (clk O) c w in
      S (commands_served (fun i => clk (S i)) (k r) w')
  end.

(** ** The OTP helpers of [cmd/api] *)

(** Go's [error]: [None] is [nil], otherwise the message. *)
Abbreviation go_error := (option string).

Definition otpRateLimitMax : Z := 3.
Definition otpRateLimitWindow : Z := 10 * GoTime.Minute.

Definition allowOTPRequest (phone : string) : prog (bool * go_error) :=
  let key := "rl:otp:" +:+ phone in
  let winSec := otpRateLimitWindow / GoTime.Second in
  Call (ScriptRun key winSec) (fun res =>
    match res with
    | inl err => Ret (false, Some (Redis.error_message err))
    | inr arr =>
        if negb (length arr =? 2)%nat
        then Ret (false, Some "unexpected rate-limit result")
        else
          let count := nth 0 arr 0 in
          let allowed := count <=? otpRateLimitMax in
          Ret (allowed, None)
    end).

Definition storeOTPInRedis (phoneNumber otp : string) : prog go_error :=
  Call (HSet phoneNumber "otp" otp) (fun r =>
    match r with
    | inl err =>
        Ret (Some ("failed to store user data in Redis: " +:+ Redis.error_message err))
    | inr _ =>
        Call (Expire phoneNumber (2 * GoTime.Minute)) (fun r =>
          match r with
          | inl err =>
              Ret (Some ("failed to set expiration for Redis key: "
                         +:+ Redis.error_message err))
          | inr _ => Ret None
          end)
    end).

(** A Go map read: a missing key gives the zero value. *)
Definition map_index (data : gmap string string) (k : string) : string :=
  default EmptyString (data !! k).

Definition verifyOTPInRedis (phoneNumber otp : string) : prog go_error :=
  Call (HGetAll phoneNumber) (fun r =>
    match r with
    | inl _ => Ret (Some "invalid or expired OTP")
    | inr data =>
        if negb (String.eqb (map_index data "otp") otp)
        then Ret (Some "invalid OTP")
        else Ret None
    end).

Definition is_digit (c : ascii) : bool :=
  (48 <=? nat_of_ascii c)%nat && (nat_of_ascii c <=? 57)%nat.

Definition zeros (n : nat) : string := string_of_list_ascii (repeat "0"%char n).

(** [fmt.Sprintf("%04d", n)]: decimal, zero-padded to width 4, sign first. *)
Definition Sprintf_04d (n : Z) : string :=
  let digits := NilZero.string_of_uint (N.to_uint (Z.abs_N n)) in
  let sign := if n <? 0 then "-" else EmptyString in
  sign +:+ zeros (4 - String.length sign - String.length digits) +:+ digits.

(** [generateOTP]: [otp] is what [rand.Read] put into the two-byte buffer. *)
Definition generateOTP (otp : Byte.byte * Byte.byte) : string :=
  Sprintf_04d (Z.rem (Z.of_N (Byte.to_N (fst otp))) 10000).

(** ** [strconv] and [strings] *)

(** [strconv.FormatInt(i, 10)] *)
Definition FormatInt (i : Z) : string := NilZero.string_of_int (Z.to_int i).

(** [strconv.ParseInt(s, 10, 64)]: an optional sign, then decimal digits;
    [None] for a syntax or range error. *)
Definition ParseInt (s : string) : option Z :=
  match s with
  | EmptyString => None
  | String a s' =>
      let '(neg, digits) :=
        if Ascii.eqb a "+" then (false, s')
        else if Ascii.eqb a "-" then (true, s')
        else (false, s) in
      match NilZero.uint_of_string digits with
      | None => None
      | Some d =>
          let un := Z.of_N (N.of_uint d) in
          if neg
          then (if un >? - int64_min then None else Some (- un))
          else (if un >=? - int64_min then None else Some un)
      end
  end.

(** The text before the first space, and the text after it. *)
Fixpoint cut_space (s : string) : option (string * string) :=
  match s with
  | EmptyString => None
  | String c s' =>
      if Ascii.eqb c " " then Some (EmptyString, s')
      else match cut_space s' with
           | Some (a, b) => Some (String c a, b)
           | None => None
           end
  end.

(** [strings.SplitN(s, " ", 2)] *)
Definition SplitN_space_2 (s : string) : list string :=
  match cut_space s with
  | Some (a, b) => [a; b]
  | None => [s]
  end.

(** ** [internal/data]: the user model *)

Module data.

(** A pointer to a [User]: nil, the package-level [AnonymousUser], or a
    record a query has just allocated. *)
Inductive user_ptr : Type :=
| Nil
| AnonymousUser
| Ptr (u : Postgres.User).

(** The pointer a model method returns next to its error. *)
Definition ptr (user : option Postgres.User) : user_ptr :=
  match user with
  | Some u => Ptr u
  | None => Nil
  end.

Definition IsAnonymous (m : user_ptr) : bool :=
  match m with
  | AnonymousUser => true
  | _ => false
  end.

Definition ErrRecordNotFound : string := "record not found".

(** [UserModel.Insert]: fills in [ID] and [CreatedAt] of [user]. *)
Definition Insert (user : Postgres.User) : prog (Postgres.User * go_error) :=
  Call (QueryInsert (Postgres.PhoneNumber user)) (fun r =>
    match r with
    | inl err => Ret (user, Some (Postgres.error_message err))
    | inr (id, created_at) =>
        Ret (Postgres.mkUser id created_at (Postgres.PhoneNumber user), None)
    end).

Definition GetByPhoneNumber (PhoneNumber : string)
  : prog (option Postgres.User * go_error) :=
  Call (QueryByPhoneNumber PhoneNumber) (fun r =>
    match r with
    | inl err => Ret (None, Some (Postgres.error_message err))
    | inr user => Ret (Some user, None)
    end).

Definition GetByID (id : Z) : prog (option Postgres.User * go_error) :=
  Call (QueryByID id) (fun r =>
    match r with
    | inl Postgres.ErrNoRows => Ret (None, Some ErrRecordNotFound)
    | inl err => Ret (None, Some (Postgres.error_message err))
    | inr user => Ret (Some user, None)
    end).

End data.

Definition createUserIfNotExists (phoneNumber : string)
  : prog (option Postgres.User * go_error) :=
  '(user, err) ← data.GetByPhoneNumber phoneNumber;
  match err, user with
  | None, Some u => Ret (Some u, None)
  | _, _ =>
      let newUser := Postgres.mkUser 0 0 phoneNumber in
      '(newUser, err) ← data.Insert newUser;
      match err with
      | Some e => Ret (None, Some ("failed to create a user: " +:+ e))
      | None => Ret (Some newUser, None)
      end
  end.

(** ** [golang-jwt/jwt/v5], as far as the service uses it

    A token is kept in decoded form: signing method, claims, tag.  The
    compact serialisation and the HMAC are parameters of the section
    below. *)

Module jwt.

Inductive SigningMethod : Type :=
| HS256
| HS384
| HS512
| OtherMethod (alg : string).

(** The type assertion of [t.Method] to [SigningMethodHMAC]. *)
Definition is_SigningMethodHMAC (m : SigningMethod) : bool :=
  match m with
  | OtherMethod _ => false
  | _ => true
  end.

(** The claims the service sets or the validator reads; a
    [NumericDate] is an instant, [None] when the claim is absent. *)
Record RegisteredClaims : Type := mkClaims {
  Subject : string;
  ExpiresAt : option Z;
  NotBefore : option Z;
  IssuedAt : option Z
}.

Record Token : Type := mkToken {
  Method : SigningMethod;
  Claims : RegisteredClaims;
  Signature : string
}.

Definition TimePrecision : Z := GoTime.Second.

Definition NewNumericDate (t : Z) : Z := GoTime.Truncate t TimePrecision.

(** [Validator.Validate] with the default options: [exp] and [nbf] are
    checked when present, without leeway; [iat] is not checked. *)
Definition Validate (now : Z) (c : RegisteredClaims) : go_error :=
  if match ExpiresAt c with Some exp => negb (now <? exp) | None => false end
  then Some "token is expired"
  else if match NotBefore c with Some nbf => now <? nbf | None => false end
  then Some "token is not valid yet"
  else None.

End jwt.

(** ** HTTP plumbing of [cmd/api/helper.go] *)

Inductive json : Type :=
| JString (s : string)
| JBool (b : bool)
| JUser (u : Postgres.User).

Abbreviation envelope := (list (string * json)).

Record ResponseWriter : Type := mkResponseWriter {
  Header : list (string * string);
  Status : option Z;
  Written : list envelope
}.

Definition StatusOK : Z := 200.
Definition StatusBadRequest : Z := 400.
Definition StatusUnauthorized : Z := 401.
Definition StatusTooManyRequests : Z := 429.
Definition StatusInternalServerError : Z := 500.

(** [w.Header().Set(k, v)] *)
Definition Header_Set (k v : string) (h : list (string * string)) : list (string * string) :=
  (k, v) :: List.filter (fun kv => negb (String.eqb (fst kv) k)) h.

(** [w.Header().Add(k, v)] *)
Definition Header_Add (k v : string) (w : ResponseWriter) : ResponseWriter :=
  mkResponseWriter (Header w ++ [(k, v)]) (Status w) (Written w).

(** [writeJSON] with no extra headers; only the first [WriteHeader] counts. *)
Definition writeJSON (w : ResponseWriter) (status : Z) (body : envelope) : ResponseWriter :=
  mkResponseWriter
    (Header_Set "Content-Type" "application/json" (Header w))
    (match Status w with Some s => Some s | None => Some status end)
    (Written w ++ [body]).

Definition errorResponse (w : ResponseWriter) (status : Z) (message : string)
  : ResponseWriter :=
  writeJSON w status [("error", JString message)].

(** A request as the handlers see it: the [Authorization] header
    (empty when absent) and the user put into the context, if any. *)
Record Request : Type := mkRequest {
  Authorization : string;
  userContext : option data.user_ptr
}.

Definition contextSetUser (r : Request) (user : data.user_ptr) : Request :=
  mkRequest (Authorization r) (Some user).

(** What serving a request ends in: the response written, or a panic. *)
Inductive served : Type :=
| Done (w : ResponseWriter)
| Panic (msg : string).

Definition served_status (s : served) : option Z :=
  match s with
  | Done w => Status w
  | Panic _ => None
  end.

Abbreviation handler := (ResponseWriter -> Request -> prog served).

(** [contextGetUser]: the user of the context, or the panic message. *)
Definition contextGetUser (r : Request) : string + data.user_ptr :=
  match userContext r with
  | Some user => inr user
  | None => inl "missing user context"
  end.

Definition requireAuthenticatedUser (next : handler) : handler :=
  fun w r =>
    match contextGetUser r with
    | inl msg => Ret (Panic msg)
    | inr user =>
        if data.IsAnonymous user
        then Ret (Done (errorResponse w StatusUnauthorized "Unauthorized"))
        else next w r
    end.

(** The decoded body of [POST /verify]. *)
Record verifyOTPReq : Type := mkVerifyOTPReq { PhoneNumber : string; OTP : string }.

Section Application.

(** The signing side of the jwt library: the tag of a header and
    claims under a key, the compact serialisation and its parser. *)
Variable HMAC : jwt.SigningMethod -> string -> jwt.RegisteredClaims -> string.
Variable compact : jwt.Token -> string.
Variable parse_compact : string -> option jwt.Token.

(** [app.jwtSecret] *)
Variable jwtSecret : string.

(** [jwt.NewWithClaims(method, claims).SignedString(key)] *)
Definition SignedString (method : jwt.SigningMethod) (claims : jwt.RegisteredClaims)
    (key : string) : string * go_error :=
  (compact (jwt.mkToken method claims (HMAC method key claims)), None).

Definition generateJWT (userID : Z) (ttl : Z) : prog (string * go_error) :=
  Call TimeNow (fun now =>
    let claims := jwt.mkClaims
                    (FormatInt userID)
                    (Some (jwt.NewNumericDate (now + ttl)))
                    None
                    (Some (jwt.NewNumericDate now)) in
    Ret (SignedString jwt.HS256 claims jwtSecret)).

(** [jwt.ParseWithClaims] with the key function of [authenticate]:
    decode, ask the key function, check the tag, validate the claims
    against the clock. *)
Definition ParseWithClaims (tokenStr : string) : prog (string + jwt.Token) :=
  match parse_compact tokenStr with
  | None => Ret (inl "token is malformed")
  | Some t =>
      if negb (jwt.is_SigningMethodHMAC (jwt.Method t))
      then Ret (inl "unexpected signing method")
      else if negb (String.eqb (jwt.Signature t)
                      (HMAC (jwt.Method t) jwtSecret (jwt.Claims t)))
      then Ret (inl "signature is invalid")
      else Call TimeNow (fun now =>
             match jwt.Validate now (jwt.Claims t) with
             | Some err => Ret (inl err)
             | None => Ret (inr t)
             end)
  end.

Definition authenticate (next : handler) : handler :=
  fun w r =>
    let w := Header_Add "Vary" "Authorization" w in
    let auth := Authorization r in
    if String.eqb auth EmptyString
    then next w (contextSetUser r data.AnonymousUser)
    else
      let parts := SplitN_space_2 auth in
      if negb (length parts =? 2)%nat || negb (String.eqb (nth 0 parts EmptyString) "Bearer")
      then Ret (Done (errorResponse w StatusUnauthorized "Invalid authorization header"))
      else
        let tokenStr := nth 1 parts EmptyString in
        parsed ← ParseWithClaims tokenStr;
        match parsed with
        | inl _ =>
            Ret (Done (errorResponse w StatusUnauthorized "Invalid or expired token"))
        | inr parsed =>
            let claims := jwt.Claims parsed in
            if String.eqb (jwt.Subject claims) EmptyString
            then Ret (Done (errorResponse w StatusUnauthorized "Invalid token claims"))
            else
              match ParseInt (jwt.Subject claims) with
              | None =>
                  Ret (Done (errorResponse w StatusUnauthorized "Invalid token subject"))
              | Some userID =>
                  '(user, err) ← data.GetByID userID;
                  match err with
                  | Some _ =>
                      Ret (Done (errorResponse w StatusUnauthorized "User not found"))
                  | None => next w (contextSetUser r (data.ptr user))
                  end
              end
        end.

(** [handleVerifyOTP]; [input] is what [readJSON] made of the body. *)
Definition handleVerifyOTP (w : ResponseWriter) (input : go_error + verifyOTPReq)
  : prog served :=
  match input with
  | inl _ => Ret (Done (errorResponse w StatusBadRequest "Invalid request payload"))
  | inr input =>
      if String.eqb (PhoneNumber input) EmptyString || String.eqb (OTP input) EmptyString
      then Ret (Done (errorResponse w StatusBadRequest "Phone number and OTP are required"))
      else
        err ← verifyOTPInRedis (PhoneNumber input) (OTP input);
        match err with
        | Some _ =>
            Ret (Done (errorResponse w StatusUnauthorized "Invalid or expired OTP"))
        | None =>
            '(user, err) ← createUserIfNotExists (PhoneNumber input);
            match err with
            | Some _ =>
                Ret (Done (errorResponse w StatusInternalServerError
                             "Failed to register user"))
            | None =>
                match user with
                | None => Ret (Panic "invalid memory address or nil pointer dereference")
                | Some user =>
                    '(jwtToken, err) ← generateJWT (Postgres.ID user) (48 * GoTime.Hour);
                    match err with
                    | Some _ =>
                        Ret (Done (errorResponse w StatusInternalServerError
                                     "Failed to generate JWT"))
                    | None =>
                        Ret (Done (writeJSON w StatusOK
                                     [("success", JBool true);
                                      ("message", JString "User authenticated");
                                      ("data", JUser user);
                                      ("token", JString jwtToken)]))
                    end
                end
            end
        end
  end.

(** [handleRequestOTP]; [entropy] is what [rand.Read] will draw. *)
Definition handleRequestOTP (entropy : Byte.byte * Byte.byte) (w : ResponseWriter)
    (input : go_error + string) : prog served :=
  match input with
  | inl _ => Ret (Done (errorResponse w StatusBadRequest "Invalid request payload"))
  | inr phone_number =>
      if String.eqb phone_number EmptyString
      then Ret (Done (errorResponse w StatusBadRequest "Phone number is required"))
      else
        '(allowed, err) ← allowOTPRequest phone_number;
        match err with
        | Some _ =>
            Ret (Done (errorResponse w StatusInternalServerError "rate limit error"))
        | None =>
            if negb allowed
            then Ret (Done (errorResponse w StatusTooManyRequests
                              "Too many OTP requests. Please try again later."))
            else
              let otp := generateOTP entropy in
              err ← storeOTPInRedis phone_number otp;
              match err with
              | Some _ =>
                  Ret (Done (errorResponse w StatusInternalServerError
                               "Failed to store OTP"))
              | None =>
                  Ret (Done (writeJSON w StatusOK
                               [("success", JBool true);
                                ("message", JString "OTP sent successfully")]))
              end
        end
  end.

End Application.

(** ** A concrete serialisation

    Stand-ins for the library's HMAC and compact form, to run the
    handlers on concrete requests: the fields of a token are numbered
    by stdpp's [encode] and the number is written in binary. *)

Definition demo_HMAC (m : jwt.SigningMethod) (key : string) (c : jwt.RegisteredClaims)
  : string :=
  key +:+ "/" +:+ jwt.Subject c.

Definition token_fields (t : jwt.Token)
  : (nat * string) * (string * option Z * option Z * option Z) * string :=
  (match jwt.Method t with
   | jwt.HS256 => (0%nat, EmptyString)
   | jwt.HS384 => (1%nat, EmptyString)
   | jwt.HS512 => (2%nat, EmptyString)
   | jwt.OtherMethod alg => (3%nat, alg)
   end,
   (jwt.Subject (jwt.Claims t), jwt.ExpiresAt (jwt.Claims t),
    jwt.NotBefore (jwt.Claims t), jwt.IssuedAt (jwt.Claims t)),
   jwt.Signature t).

Definition fields_token
    (f : (nat * string) * (string * option Z * option Z * option Z) * string) : jwt.Token :=
  let '((tag, alg), (sub, exp, nbf, iat), sig) := f in
  jwt.mkToken
    (match tag with
     | 0%nat => jwt.HS256
     | 1%nat => jwt.HS384
     | 2%nat => jwt.HS512
     | _ => jwt.OtherMethod alg
     end)
    (jwt.mkClaims sub exp nbf iat) sig.

Fixpoint positive_bits (p : positive) : string :=
  match p with
  | xH => EmptyString
  | xO q => String "0" (positive_bits q)
  | xI q => String "1" (positive_bits q)
  end.

Fixpoint bits_positive (s : string) : option positive :=
  match s with
  | EmptyString => Some xH
  | String c s' =>
      if Ascii.eqb c "0" then xO <$> bits_positive s'
      else if Ascii.eqb c "1" then xI <$> bits_positive s'
      else None
  end.

Definition demo_compact (t : jwt.Token) : string :=
  positive_bits (encode (token_fields t)).

Definition demo_parse_compact (s : string) : option jwt.Token :=
  p ← bits_positive s; fields_token <$> decode p.

(** A protected handler body that answers 200 with the phone number of
    the user in the context. *)
Definition demo_protected : handler :=
  fun w r =>
    match userContext r with
    | Some (data.Ptr u) =>
        Ret (Done (writeJSON w StatusOK [("phone", JString (Postgres.PhoneNumber u))]))
    | _ => Ret (Panic "missing user context")
    end.

(** A table whose only user has id 7. *)
Definition world_with_user_7 : world :=
  World ∅ (Postgres.Table [Postgres.mkUser 7 0 "+1234567890"] 7).

(** ** Concurrent requests

    Each request is a thread; the schedule says which thread has its
    next command served, and when.  The trace keeps every command with
    its reply. *)

Inductive event : Type :=
| Event {R : Type} (tid : nat) (now : Z) (c : command R) (r : R).

Definition step {A : Type} (tid : nat) (now : Z) (p : prog A) (w : world)
  : prog A * world * list event :=
  match p with
  | Ret a => (Ret a, w, [])
  | Call c k => let '(r, w') := exec now c w in (k r, w', [Event tid now c r])
  end.

Fixpoint run_pool {A : Type} (sched : list (nat * Z)) (pool : list (prog A)) (w : world)
  : list (prog A) * world * list event :=
  match sched with
  | [] => (pool, w, [])
  | (tid, now) :: sched' =>
      match pool !! tid with
      | None => run_pool sched' pool w
      | Some p =>
          let '(p', w', evs) := step tid now p w in
          let '(pool', w'', evs') := run_pool sched' (<[tid := p']> pool) w' in
          (pool', w'', (evs ++ evs')%list)
      end
  end.

(** The counter value a rate-limit script reported, if the event is one. *)
Definition script_count (ev : event) : option Z :=
  match ev with
  | Event _ _ c r =>
      match c in command R return R -> option Z with
      | ScriptRun _ _ => fun r =>
          match r with
          | inr (count :: _) => Some count
          | _ => None
          end
      | _ => fun _ => None
      end r
  end.

(** Whole runs of the rate-limit script on [key] (window: 600 seconds),
    one after the other, for the threads and at the instants of [ts]. *)
Fixpoint serial_scripts (key : string) (ts : list (nat * Z)) (w : world)
  : list event * world :=
  match ts with
  | [] => ([], w)
  | (tid, t) :: ts' =>
      let '(r, w1) := exec t (ScriptRun key 600) w in
      let '(evs, w2) := serial_scripts key ts' w1 in
      (Event tid t (ScriptRun key 600) r :: evs, w2)
  end.

Definition is_call {A : Type} (p : prog A) : bool :=
  match p with
  | Ret _ => false
  | Call _ _ => true
  end.

(** A thread that has still to make its rate-limit call, or is finished. *)
Definition fresh_or_done (phone : string) (p : prog (bool * go_error)) : Prop :=
  p = allowOTPRequest phone \/ is_call p = false.

(** ** Concrete states and requests for the examples *)

(** A store with no keys and no users. *)
Definition empty_world : world := World ∅ (Postgres.Table [] 0).

(** A response writer nothing has been written to. *)
Definition blank : ResponseWriter := mkResponseWriter [] None [].

(** The world after the code 0042 has been stored for +1234567890, the
    [HSET] served at instant 0 and the [EXPIRE] one millisecond later. *)
Definition challenge_world : world :=
  snd (run (instants 0 [1000000]) (storeOTPInRedis "+1234567890" "0042") empty_world).

(** ** Views of the state used in the statements *)

(** The code of the unexpired challenge record of [phone], if there is one. *)
Definition active_challenge (now : Z) (phone : string) (w : world) : option string :=
  match Redis.lookup_live (Redis.mstime now) phone (cache w) with
  | Some (Redis.Entry (Redis.VHash h) _) => h !! "otp"
  | _ => None
  end.

(** Every counter in the keyspace is at least 1, as the script leaves it. *)
Definition counters_positive (db : gmap string Redis.entry) : Prop :=
  forall k n ex, db !! k = Some (Redis.Entry (Redis.VInt n) ex) -> 1 <= n.

(** No two rows of the table share a phone number. *)
Definition phones_unique (t : Postgres.users_table) : Prop :=
  NoDup (map Postgres.PhoneNumber (Postgres.rows t)).

(** Successive requests for one phone number, served at the instants [ts]. *)
Fixpoint serve (phone : string) (ts : list Z) (w : world)
  : list (bool * go_error) * world :=
  match ts with
  | [] => ([], w)
  | t :: ts' =>
      let '(r, w1) := run (instants t []) (allowOTPRequest phone) w in
      let '(rs, w2) := serve phone ts' w1 in
      (r :: rs, w2)
  end.

(** The expiry, on the server clock, of a challenge whose [EXPIRE] is
    served at [t]. *)
Definition otp_deadline (t : Z) : Z :=
  Redis.mstime t + 2 * GoTime.Minute / GoTime.Second * 1000.

(** The result of the [n]-th call of a window: admitted up to the maximum. *)
Definition nth_call (n : nat) : bool * go_error :=
  (Z.of_nat n <=? otpRateLimitMax, None).

(** The key of the rate-limit counter and the end of a window opened at [t0],
    on the server clock. *)
Definition rate_limit_key (phone : string) : string := "rl:otp:" +:+ phone.

Definition window_end (t0 : Z) : Z :=
  Redis.mstime t0 + otpRateLimitWindow / GoTime.Second * 1000.

(** ** The other handlers of [cmd/api] *)

Definition StatusNotFound : Z := 404.

(** What a handler hands to [errorResponse] (status and message) or to
    [writeJSON] (status and the value it wraps in the envelope). *)
Inductive reply (A : Type) : Type :=
| ErrorReply (status : Z) (message : string)
| JSONReply (status : Z) (body : A).

Arguments ErrorReply {A} status message.
Arguments JSONReply {A} status body.

Definition reply_status {A : Type} (r : reply A) : Z :=
  match r with
  | ErrorReply status _ => status
  | JSONReply status _ => status
  end.

(** [getSingleUser]; [idStr] is the path parameter [id], the body of
    the 200 is the pointer put under the key [user]. *)
Definition getSingleUser (idStr : string) : prog (reply data.user_ptr) :=
  match ParseInt idStr with
  | None => Ret (ErrorReply StatusBadRequest "invalid user id")
  | Some userID =>
      '(user, err) ← data.GetByID userID;
      match err with
      | Some e =>
          if String.eqb e data.ErrRecordNotFound
          then Ret (ErrorReply StatusNotFound "user not found")
          else Ret (ErrorReply StatusInternalServerError "failed to fetch user")
      | None => Ret (JSONReply StatusOK (data.ptr user))
      end
  end.

(** [strings.Split(s, " ")] *)
Fixpoint Split_space (s : string) : list string :=
  match s with
  | EmptyString => [EmptyString]
  | String c s' =>
      if Ascii.eqb c " " then EmptyString :: Split_space s'
      else match Split_space s' with
           | x :: xs => String c x :: xs
           | [] => [String c EmptyString]
           end
  end.

(** [user.PhoneNumber] through the pointer: [None] is the nil
    dereference, [AnonymousUser] points to the zero [User]. *)
Definition user_PhoneNumber (user : data.user_ptr) : option string :=
  match user with
  | data.Nil => None
  | data.AnonymousUser => Some EmptyString
  | data.Ptr u => Some (Postgres.PhoneNumber u)
  end.

Section Protected.

(** [jwt.Parser.ParseUnverified] is the decoding step of the library,
    and [time_json] the JSON text of a [time.Time]. *)
Variable parse_compact : string -> option jwt.Token.
Variable time_json : Z -> string.

Definition protectedHandler : handler :=
  fun w r =>
    match contextGetUser r with
    | inl msg => Ret (Panic msg)
    | inr user =>
        let authHeader := Authorization r in
        match Split_space authHeader with
        | _ :: tokenStr :: _ =>
            match parse_compact tokenStr with
            | None => Ret (Done (errorResponse w StatusUnauthorized "Invalid token"))
            | Some parsed =>
                match jwt.ExpiresAt (jwt.Claims parsed) with
                | None =>
                    Ret (Done (errorResponse w StatusUnauthorized
                                 "Token missing expiration"))
                | Some exp =>
                    match user_PhoneNumber user with
                    | None =>
                        Ret (Panic "invalid memory address or nil pointer dereference")
                    | Some phone =>
                        Ret (Done (writeJSON w StatusOK
                                     [("message", JString ("Hello " +:+ phone +:+ "!"));
                                      ("phone", JString phone);
                                      ("expires_at", JString (time_json exp))]))
                    end
                end
            end
        | _ => Ret (Panic "index out of range [1] with length 1")
        end
    end.

End Protected.

(** ** Listing users *)

Record UserFilter : Type := mkUserFilter { Q : string; Page : Z; PageSize : Z }.

Record UsersListResponse : Type := mkUsersListResponse {
  Items : list Postgres.User;
  RespPage : Z;
  RespPageSize : Z;
  Total : Z
}.

(** [strconv.Atoi]: on a 64-bit [int] it reads what [ParseInt] reads. *)
Definition Atoi (s : string) : option Z := ParseInt s.

Definition atoiDefault (s : string) (def : Z) : Z :=
  if String.eqb s EmptyString then def
  else match Atoi s with
       | None => def
       | Some n => n
       end.

(** Go's [int] arithmetic wraps around at 64 bits. *)
Definition wrap_int64 (z : Z) : Z := (z - int64_min) mod 2 ^ 64 + int64_min.

Section Listing.

(** [ILIKE value pattern] is Postgres' case-insensitive pattern match,
    [scan] the order in which the executor yields the rows of a table,
    [TrimSpace] is [strings.TrimSpace]. *)
Variable ILIKE : string -> string -> bool.
Variable scan : list Postgres.User -> list Postgres.User.
Variable TrimSpace : string -> string.

(** The rows the [WHERE] clause of [UserModel.List] keeps. *)
Definition List_where (f : UserFilter) (t : Postgres.users_table) : list Postgres.User :=
  if String.eqb (Q f) EmptyString
  then scan (Postgres.rows t)
  else List.filter (fun u => ILIKE (Postgres.PhoneNumber u) ("%" +:+ Q f +:+ "%"))
         (scan (Postgres.rows t)).

(** [UserModel.List]: one query with [LIMIT] and [OFFSET], every row
    carrying [COUNT OVER ()], the number of rows before the limit; the
    total is taken from the rows returned.  Postgres refuses a negative
    [LIMIT] or [OFFSET]. *)
Definition UserModel_List (f : UserFilter) (t : Postgres.users_table)
  : list Postgres.User * Z * go_error :=
  let limit := PageSize f in
  let offset := wrap_int64 ((Page f - 1) * PageSize f) in
  if limit <? 0 then ([], 0, Some "pq: LIMIT must not be negative")
  else if offset <? 0 then ([], 0, Some "pq: OFFSET must not be negative")
  else
    let matching := List_where f t in
    let items := firstn (Z.to_nat limit) (skipn (Z.to_nat offset) matching) in
    let total := match items with
                 | [] => 0
                 | _ :: _ => Z.of_nat (length matching)
                 end in
    (items, total, None).

(** [handleListUsers]; [q], [page] and [page_size] are what [qp.Get]
    gives for these query parameters. *)
Definition handleListUsers (q page page_size : string) (t : Postgres.users_table)
  : reply UsersListResponse :=
  let q := TrimSpace q in
  let page := atoiDefault page 1 in
  let page := if page <? 1 then 1 else page in
  let pageSize := atoiDefault page_size 20 in
  let pageSize := if pageSize <? 1 then 20 else pageSize in
  let pageSize := if pageSize >? 100 then 100 else pageSize in
  let filter := mkUserFilter q page pageSize in
  let '(users, total, err) := UserModel_List filter t in
  match err with
  | Some _ => ErrorReply StatusInternalServerError "failed to fetch users"
  | None => JSONReply StatusOK (mkUsersListResponse users page pageSize total)
  end.

End Listing.

(** ** More views of the state *)

(** Ids are unique and were all handed out by the sequence. *)
Definition ids_from_sequence (t : Postgres.users_table) : Prop :=
  NoDup (map Postgres.ID (Postgres.rows t))
  /\ Forall (fun u => Postgres.ID u <= Postgres.id_seq t) (Postgres.rows t).

(** The table as the constraints of the migration keep it. *)
Definition table_consistent (t : Postgres.users_table) : Prop :=
  phones_unique t /\ ids_from_sequence t.

(** What every command keeps: counters at 1 or more, the table as its
    constraints want it. *)
Definition world_consistent (w : world) : Prop :=
  counters_positive (cache w) /\ table_consistent (models w).

(** The JSON text of an instant, for the examples: its decimal number. *)
Definition demo_time_json (t : Z) : string := FormatInt t.

(** A stand-in for [ILIKE] with a pattern of the form %q%: [q] occurs
    in the value (case is not folded). *)
Definition demo_ILIKE (value pattern : string) : bool :=
  let q := String.substring 1 (String.length pattern - 2) pattern in
  match String.index 0 q value with
  | Some _ => true
  | None => false
  end.

(** A table with three users. *)
Definition three_users : Postgres.users_table :=
  Postgres.Table [Postgres.mkUser 1 0 "+1234567890";
                  Postgres.mkUser 2 0 "+1234567891";
                  Postgres.mkUser 3 0 "+9876543210"] 3.

(** * Properties *)

Section RateLimit.

Variable phone : string.
Let key := rate_limit_key phone.

Lemma allowOTPRequest_script clk w :
  run clk (allowOTPRequest phone) w =
    let '(r, db) := Redis.otpRateLimitScript (Redis.mstime (clk O)) key 600 (cache w) in
    (match r with
     | inl err => (false, Some (Redis.error_message err))
     | inr arr =>
         if negb (length arr =? 2)%nat
         then (false, Some "unexpected rate-limit result")
         else (nth 0 arr 0 <=? 3, None)
     end, World db (models w)).
Proof.
  unfold allowOTPRequest. cbn [run exec].
  change (otpRateLimitWindow / GoTime.Second) with 600.
  fold (rate_limit_key phone). fold key.
  destruct (Redis.otpRateLimitScript _ _ _ _) as [[err|arr] db]; [reflexivity|].
  destruct (negb _); reflexivity.
Qed.

(** No live counter: the call opens a window with the counter at 1. *)
Lemma allowOTPRequest_fresh clk w :
  Redis.lookup_live (Redis.mstime (clk O)) key (cache w) = None ->
  run clk (allowOTPRequest phone) w =
    ((true, None),
     World (<[key := Redis.Entry (Redis.VInt 1) (Some (window_end (clk O)))]> (cache w))
           (models w)).
Proof.
  intros Hnone. rewrite allowOTPRequest_script.
  unfold Redis.otpRateLimitScript, Redis.EXISTS. rewrite Hnone. reflexivity.
Qed.

(** A live counter below the int64 limit: increment, then decide. *)
Lemma allowOTPRequest_live clk w n ex :
  Redis.lookup_live (Redis.mstime (clk O)) key (cache w)
    = Some (Redis.Entry (Redis.VInt n) ex) ->
  n < int64_max ->
  run clk (allowOTPRequest phone) w =
    ((n + 1 <=? otpRateLimitMax, None),
     World (<[key := Redis.Entry (Redis.VInt (n + 1)) ex]> (cache w)) (models w)).
Proof.
  intros Hlive Hn. rewrite allowOTPRequest_script.
  unfold Redis.otpRateLimitScript, Redis.EXISTS, Redis.INCR. rewrite Hlive.
  cbn [Z.eqb]. apply Z.ltb_lt in Hn. rewrite Hn. reflexivity.
Qed.

End RateLimit.

Section RateLimitWindow.

Variable phone : string.
Let key := rate_limit_key phone.

Lemma nth_call_shift n l :
  map (fun i => (n + Z.of_nat i <=? otpRateLimitMax, @None string)) (seq 2 l)
  = map (fun i => (n + 1 + Z.of_nat i <=? otpRateLimitMax, @None string)) (seq 1 l).
Proof.
  rewrite <- (seq_shift l 1), map_map. apply map_ext. intros i.
  do 2 f_equal. lia.
Qed.

(** Calls inside a live window count on from the stored value. *)
Lemma serve_live rest : forall w n d,
  cache w !! key = Some (Redis.Entry (Redis.VInt n) (Some d)) ->
  Forall (fun t => Redis.mstime t <= d) rest ->
  n + Z.of_nat (length rest) <= int64_max ->
  serve phone rest w =
    (map (fun i => (n + Z.of_nat i <=? otpRateLimitMax, None)) (seq 1 (length rest)),
     World (<[key := Redis.Entry (Redis.VInt (n + Z.of_nat (length rest))) (Some d)]>
              (cache w))
           (models w)).
Proof.
  induction rest as [|t rest IH]; intros w n d Hkey Hwin Hmax.
  - cbn [serve length seq map]. destruct w as [db t]. cbn in *.
    rewrite Z.add_0_r, insert_id by exact Hkey. reflexivity.
  - apply Forall_cons_1 in Hwin as [Ht Hwin]. cbn beta in Ht. cbn [length] in Hmax.
    cbn [serve].
    rewrite (allowOTPRequest_live phone _ w n (Some d)); cycle 1.
    { unfold Redis.lookup_live. fold key. rewrite Hkey.
      unfold Redis.expired, instants; cbn [Redis.expire_at nth].
      destruct (Z.ltb_spec d (Redis.mstime t)); [lia | reflexivity]. }
    { lia. }
    fold key.
    rewrite (IH _ (n + 1) d); cbn [cache models].
    + rewrite insert_insert_eq. cbn [length seq map].
      rewrite nth_call_shift.
      replace (n + 1 + Z.of_nat (length rest)) with (n + Z.of_nat (S (length rest))) by lia.
      reflexivity.
    + apply lookup_insert_eq.
    + exact Hwin.
    + lia.
Qed.

End RateLimitWindow.

(** C1.  For every phone number: the first call of a window (no live
    counter) is admitted and sets the counter to 1 with the window as
    its time to live; the N-th call served before the window ends is
    admitted exactly when N <= 3, and every call, admitted or not,
    leaves the counter at its own number N; the next call after the
    window has ended is admitted and sets the counter back to 1. *)
Theorem rate_limit_window (phone : string) (w : world) (t0 : Z) (rest : list Z) :
  Redis.lookup_live (Redis.mstime t0) (rate_limit_key phone) (cache w) = None ->
  Forall (fun t => Redis.mstime t <= window_end t0) rest ->
  Z.of_nat (S (length rest)) <= int64_max ->
  serve phone (t0 :: rest) w =
    (map nth_call (seq 1 (S (length rest))),
     World (<[rate_limit_key phone :=
                Redis.Entry (Redis.VInt (Z.of_nat (S (length rest)))) (Some (window_end t0))]>
              (cache w))
           (models w))
  /\ forall t',
       window_end t0 < Redis.mstime t' ->
       run (instants t' []) (allowOTPRequest phone) (snd (serve phone (t0 :: rest) w)) =
         ((true, None),
          World (<[rate_limit_key phone :=
                     Redis.Entry (Redis.VInt 1) (Some (window_end t'))]> (cache w))
                (models w)).
Proof.
  intros Hfresh Hwin Hmax.
  assert (Hserve : serve phone (t0 :: rest) w =
    (map nth_call (seq 1 (S (length rest))),
     World (<[rate_limit_key phone :=
                Redis.Entry (Redis.VInt (Z.of_nat (S (length rest)))) (Some (window_end t0))]>
              (cache w))
           (models w))).
  { cbn [serve]. rewrite allowOTPRequest_fresh by exact Hfresh.
    rewrite (serve_live phone rest _ 1 (window_end t0)); cbn [cache models].
    - rewrite insert_insert_eq. cbn [seq map]. f_equal.
      + f_equal. rewrite <- (seq_shift (length rest) 1), map_map.
        apply map_ext. intros i. unfold nth_call. do 2 f_equal. lia.
      + do 4 f_equal. lia.
    - apply lookup_insert_eq.
    - exact Hwin.
    - lia. }
  split; [exact Hserve|].
  intros t' Hlate. rewrite Hserve. cbn [snd].
  rewrite allowOTPRequest_fresh; cbn [cache models].
  - rewrite insert_insert_eq. reflexivity.
  - unfold Redis.lookup_live. rewrite lookup_insert_eq.
    unfold Redis.expired, instants; cbn [Redis.expire_at nth].
    destruct (Z.ltb_spec (window_end t0) (Redis.mstime t')); [reflexivity | lia].
Qed.

(** At the int64 limit [INCR] fails: the call reports the error and the
    counter stays. *)
Lemma allowOTPRequest_overflow (phone : string) (clk : nat -> Z) (w : world) ex :
  Redis.lookup_live (Redis.mstime (clk O)) (rate_limit_key phone) (cache w)
    = Some (Redis.Entry (Redis.VInt int64_max) ex) ->
  run clk (allowOTPRequest phone) w =
    ((false, Some (Redis.error_message Redis.ERR_overflow)), World (cache w) (models w)).
Proof.
  intros Hlive. rewrite allowOTPRequest_script.
  unfold Redis.otpRateLimitScript, Redis.EXISTS, Redis.INCR. rewrite Hlive.
  reflexivity.
Qed.

(** ** The OTP generator *)

(** C4.  Whatever the two random bytes are, the code has exactly four
    decimal digits, leading zeros kept; but it is the value of the
    first byte alone, so it lies in 0000..0255 and a code such as 9999
    is never produced. *)
Theorem generateOTP_range (otp : Byte.byte * Byte.byte) :
  String.length (generateOTP otp) = 4%nat
  /\ forallb is_digit (list_ascii_of_string (generateOTP otp)) = true
  /\ generateOTP otp = Sprintf_04d (Z.of_N (Byte.to_N (fst otp)))
  /\ 0 <= Z.of_N (Byte.to_N (fst otp)) <= 255
  /\ generateOTP otp <> "9999".
Proof.
  destruct otp as [b0 b1]. unfold generateOTP. cbn [fst].
  destruct b0; vm_compute; repeat split; congruence.
Qed.

(** ** Verification of a submitted code *)

Lemma verifyOTPInRedis_run (clk : nat -> Z) (phone otp : string) (w : world) :
  run clk (verifyOTPInRedis phone otp) w =
    (match Redis.HGETALL (Redis.mstime (clk O)) phone (cache w) with
     | inl _ => Some "invalid or expired OTP"
     | inr data =>
         if String.eqb (map_index data "otp") otp then None else Some "invalid OTP"
     end, w).
Proof.
  unfold verifyOTPInRedis. cbn [run exec].
  destruct (Redis.HGETALL _ _ _) as [e|data]; [reflexivity|].
  destruct (String.eqb _ _); reflexivity.
Qed.

(** A code other than the empty string passes exactly when it is the
    code of the unexpired record. *)
Lemma verifyOTPInRedis_active (clk : nat -> Z) (phone otp : string) (w : world) :
  otp <> EmptyString ->
  fst (run clk (verifyOTPInRedis phone otp) w) = None
  <-> active_challenge (clk O) phone w = Some otp.
Proof.
  intros Hotp. rewrite verifyOTPInRedis_run. cbn [fst].
  unfold Redis.HGETALL, active_challenge, map_index.
  destruct (Redis.lookup_live _ _ _) as [[[n|h] ex]|].
  - split; discriminate.
  - destruct (h !! "otp") as [c|]; cbn [default from_option id].
    + destruct (String.eqb_spec c otp); naive_solver.
    + destruct (String.eqb_spec EmptyString otp); naive_solver.
  - rewrite lookup_empty. cbn [default from_option id].
    destruct (String.eqb_spec EmptyString otp); naive_solver.
Qed.

(** Without a live key the read gives the empty map, and only the empty
    code passes. *)
Lemma verifyOTPInRedis_absent (clk : nat -> Z) (phone otp : string) (w : world) :
  Redis.lookup_live (Redis.mstime (clk O)) phone (cache w) = None ->
  fst (run clk (verifyOTPInRedis phone otp) w) = None <-> otp = EmptyString.
Proof.
  intros Hnone. rewrite verifyOTPInRedis_run. cbn [fst].
  unfold Redis.HGETALL, map_index. rewrite Hnone, lookup_empty. cbn [default from_option id].
  destruct (String.eqb_spec EmptyString otp); naive_solver.
Qed.

(** ** Sequencing *)

Lemma run_bind {A B : Type} (p : prog A) (f : A -> prog B) : forall clk w,
  run clk (p ≫= f) w =
    run (fun i => clk (commands_served clk p w + i)%nat)
        (f (fst (run clk p w))) (snd (run clk p w)).
Proof.
  unfold mbind, prog_mbind.
  induction p as [a|R c k IH]; intros clk w; cbn [prog_bind run commands_served].
  - reflexivity.
  - destruct (exec (clk O) c w) as [r w']. rewrite IH. reflexivity.
Qed.

(** ** Registration on verification *)

(** Served without interference, the upsert returns the row it finds,
    or inserts one. *)
Lemma createUserIfNotExists_run (clk : nat -> Z) (phone : string) (w : world) :
  run clk (createUserIfNotExists phone) w =
    match Postgres.select_by_phone_number phone (models w) with
    | Some u => ((Some u, None), w)
    | None =>
        let id := Postgres.id_seq (models w) + 1 in
        let u := Postgres.mkUser id (Postgres.timestamp0 (clk 1%nat)) phone in
        ((Some u, None),
         World (cache w) (Postgres.Table (Postgres.rows (models w) ++ [u]) id))
    end.
Proof.
  unfold createUserIfNotExists, data.GetByPhoneNumber, data.Insert, mbind, prog_mbind.
  cbn [prog_bind run exec].
  destruct (Postgres.select_by_phone_number phone (models w)) as [u|] eqn:Hsel.
  - reflexivity.
  - cbn [prog_bind run exec Postgres.error_message Postgres.PhoneNumber].
    unfold Postgres.insert_user. cbn [models]. rewrite Hsel.
    cbn [prog_bind run Postgres.CreatedAt Postgres.PhoneNumber cache]. reflexivity.
Qed.

Lemma createUserIfNotExists_cache (clk : nat -> Z) (phone : string) (w : world) :
  cache (snd (run clk (createUserIfNotExists phone) w)) = cache w
  /\ exists u, fst (run clk (createUserIfNotExists phone) w) = (Some u, None).
Proof.
  rewrite createUserIfNotExists_run.
  destruct (Postgres.select_by_phone_number _ _); cbn; eauto.
Qed.

(** ** The verification handler *)

Section VerifyHandler.

Variable HMAC : jwt.SigningMethod -> string -> jwt.RegisteredClaims -> string.
Variable compact : jwt.Token -> string.
Variable jwtSecret : string.

Lemma generateJWT_run (clk : nat -> Z) (userID ttl : Z) (w : world) :
  run clk (generateJWT HMAC compact jwtSecret userID ttl) w =
    ((compact
        (jwt.mkToken jwt.HS256
           (jwt.mkClaims (FormatInt userID)
              (Some (jwt.NewNumericDate (clk O + ttl))) None
              (Some (jwt.NewNumericDate (clk O))))
           (HMAC jwt.HS256 jwtSecret
              (jwt.mkClaims (FormatInt userID)
                 (Some (jwt.NewNumericDate (clk O + ttl))) None
                 (Some (jwt.NewNumericDate (clk O)))))),
      None), w).
Proof. reflexivity. Qed.

(** What the handler answers to a well-formed body, and that it
    leaves the keyspace as it found it. *)
Lemma handleVerifyOTP_run (clk : nat -> Z) (rw : ResponseWriter)
    (input : verifyOTPReq) (w : world) :
  PhoneNumber input <> EmptyString ->
  OTP input <> EmptyString ->
  Status rw = None ->
  served_status (fst (run clk (handleVerifyOTP HMAC compact jwtSecret rw (inr input)) w)) =
    Some (if decide (active_challenge (clk O) (PhoneNumber input) w = Some (OTP input))
          then StatusOK else StatusUnauthorized)
  /\ cache (snd (run clk (handleVerifyOTP HMAC compact jwtSecret rw (inr input)) w))
     = cache w.
Proof.
  intros Hphone Hotp Hrw. unfold handleVerifyOTP.
  destruct (String.eqb_spec (PhoneNumber input) EmptyString) as [|_]; [contradiction|].
  destruct (String.eqb_spec (OTP input) EmptyString) as [|_]; [contradiction|].
  cbn [orb]. rewrite run_bind.
  pose proof (verifyOTPInRedis_active clk (PhoneNumber input) (OTP input) w Hotp) as Hact.
  destruct (run clk (verifyOTPInRedis _ _) w) as [err w1] eqn:Hv.
  assert (w1 = w) as -> by (rewrite verifyOTPInRedis_run in Hv; congruence).
  cbn [fst snd] in *. destruct err as [msg|].
  - cbn [run fst snd]. case_decide as Hd; [apply Hact in Hd; discriminate|].
    unfold errorResponse, writeJSON. cbn [Status]. rewrite Hrw. split; reflexivity.
  - case_decide as Hd; [|exfalso; apply Hd, Hact; reflexivity].
    rewrite run_bind.
    match goal with |- context [run ?c (createUserIfNotExists ?p) w] =>
      destruct (createUserIfNotExists_cache c p w) as [Hc [u Hu]];
      destruct (run c (createUserIfNotExists p) w) as [r w2] end.
    cbn [fst snd] in *. subst r. rewrite run_bind, generateJWT_run.
    cbn [fst snd run]. unfold writeJSON. cbn [Status]. rewrite Hrw.
    split; [reflexivity | exact Hc].
Qed.

(** Any other body is answered with 400 before a store is asked. *)
Lemma handleVerifyOTP_bad_request (rw : ResponseWriter) (input : go_error + verifyOTPReq) :
  match input with
  | inl _ => True
  | inr input => PhoneNumber input = EmptyString \/ OTP input = EmptyString
  end ->
  exists msg,
    handleVerifyOTP HMAC compact jwtSecret rw input
    = Ret (Done (errorResponse rw StatusBadRequest msg)).
Proof.
  destruct input as [e|input]; intros H; unfold handleVerifyOTP.
  - eauto.
  - destruct H as [-> | ->]; cbn [String.eqb orb]; [eauto|].
    rewrite orb_true_r. eauto.
Qed.

End VerifyHandler.

(** ** Storing a challenge *)

Lemma storeOTPInRedis_run (clk : nat -> Z) (phone otp : string) (w : world) :
  run clk (storeOTPInRedis phone otp) w =
    match Redis.HSET (Redis.mstime (clk O)) phone "otp" otp (cache w) with
    | (inl err, db) =>
        (Some ("failed to store user data in Redis: " +:+ Redis.error_message err),
         World db (models w))
    | (inr _, db) =>
        (None, World (snd (Redis.EXPIRE (Redis.mstime (clk 1%nat)) phone 120 db)) (models w))
    end.
Proof.
  unfold storeOTPInRedis. cbn [run exec].
  destruct (Redis.HSET _ _ _ _ _) as [[err|n] db]; [reflexivity|].
  cbn [run exec cache models].
  change (2 * GoTime.Minute / GoTime.Second) with 120.
  destruct (Redis.EXPIRE _ _ _ _) as [b db']. reflexivity.
Qed.

(** After a store that returned nil the slot of the phone number is a
    hash holding the new code.  Its expiry is two minutes after the
    [EXPIRE], unless the key it updated ran out between the two
    commands. *)
Lemma storeOTPInRedis_slot (clk : nat -> Z) (phone otp : string) (w w' : world) :
  run clk (storeOTPInRedis phone otp) w = (None, w') ->
  exists h ex,
    cache w' !! phone = Some (Redis.Entry (Redis.VHash h) ex)
    /\ h !! "otp" = Some otp
    /\ (ex = Some (otp_deadline (clk 1%nat))
        \/ exists e v,
             ex = Some e
             /\ cache w !! phone = Some (Redis.Entry v (Some e))
             /\ Redis.mstime (clk O) <= e < Redis.mstime (clk 1%nat)).
Proof.
  rewrite storeOTPInRedis_run. unfold Redis.HSET.
  destruct (Redis.lookup_live _ _ _) as [[[n|h] ex]|] eqn:Hlive; [discriminate| |].
  - intros [= <-]. cbn [cache].
    unfold Redis.EXPIRE, Redis.lookup_live at 1. rewrite lookup_insert_eq.
    destruct (Redis.expired _ _) eqn:Hexp; cbn [snd].
    + exists (<["otp" := otp]> h), ex. rewrite lookup_insert_eq, lookup_insert_eq.
      split; [reflexivity|]. split; [reflexivity|]. right.
      unfold Redis.lookup_live in Hlive.
      destruct (cache w !! phone) as [e0|] eqn:He0; [|discriminate].
      destruct (Redis.expired (Redis.mstime (clk O)) e0) eqn:Hexp0; [discriminate|].
      injection Hlive as ->.
      unfold Redis.expired in *. cbn [Redis.expire_at] in *.
      destruct ex as [e|]; [|discriminate].
      exists e, (Redis.VHash h). split; [reflexivity|]. split; [reflexivity|].
      apply Z.ltb_lt in Hexp. apply Z.ltb_ge in Hexp0. lia.
    + exists (<["otp" := otp]> h), (Some (otp_deadline (clk 1%nat))).
      rewrite insert_insert_eq, lookup_insert_eq, lookup_insert_eq. cbn [Redis.val].
      split; [reflexivity|]. split; [reflexivity|]. left. reflexivity.
  - intros [= <-]. cbn [cache].
    unfold Redis.EXPIRE, Redis.lookup_live at 1. rewrite lookup_insert_eq.
    cbn [Redis.expired Redis.expire_at snd].
    exists {["otp" := otp]}, (Some (otp_deadline (clk 1%nat))).
    rewrite insert_insert_eq, lookup_insert_eq, lookup_singleton_eq. cbn [Redis.val].
    split; [reflexivity|]. split; [reflexivity|]. left. reflexivity.
Qed.

(** Reading a slot that holds a hash with the code [stored]. *)
Lemma verifyOTPInRedis_slot (clk : nat -> Z) (phone stored otp : string) (w : world) h ex :
  cache w !! phone = Some (Redis.Entry (Redis.VHash h) ex) ->
  h !! "otp" = Some stored ->
  fst (run clk (verifyOTPInRedis phone otp) w) = None <->
    if Redis.expired (Redis.mstime (clk O)) (Redis.Entry (Redis.VHash h) ex)
    then otp = EmptyString else otp = stored.
Proof.
  intros Hslot Hotp. rewrite verifyOTPInRedis_run. cbn [fst].
  unfold Redis.HGETALL, Redis.lookup_live, map_index. rewrite Hslot.
  destruct (Redis.expired _ _).
  - rewrite lookup_empty. cbn [default from_option id].
    destruct (String.eqb_spec EmptyString otp); naive_solver.
  - rewrite Hotp. cbn [default from_option id].
    destruct (String.eqb_spec stored otp); naive_solver.
Qed.

(** After a store that returned nil, the unexpired challenge, if there
    is one, is the code just stored. *)
Lemma storeOTPInRedis_active (clk : nat -> Z) (phone code : string) (w w' : world)
    (now : Z) (c : string) :
  run clk (storeOTPInRedis phone code) w = (None, w') ->
  active_challenge now phone w' = Some c -> c = code.
Proof.
  intros Hstore Hact.
  destruct (storeOTPInRedis_slot _ _ _ _ _ Hstore) as (h & ex & Hslot & Hotp & _).
  unfold active_challenge, Redis.lookup_live in Hact. rewrite Hslot in Hact.
  destruct (Redis.expired _ _); [discriminate|]. congruence.
Qed.

Lemma active_challenge_cache (now : Z) (phone : string) (w1 w2 : world) :
  cache w1 = cache w2 -> active_challenge now phone w1 = active_challenge now phone w2.
Proof. unfold active_challenge. intros ->. reflexivity. Qed.

(** C2.  For a request with both fields filled in, [verifyOTPInRedis]
    returns nil exactly when the submitted code equals the code of the
    unexpired challenge record of that phone number; then the handler,
    served without interference from other requests, answers 200, and
    in every other case (no key, expired key, other code) it answers
    401.  The unexpired record holds the code stored
    last: in the state a store has just left, it can only be the code
    of that store. *)
Theorem verify_exactly_active_challenge
    (HMAC : jwt.SigningMethod -> string -> jwt.RegisteredClaims -> string)
    (compact : jwt.Token -> string) (jwtSecret : string)
    (clk : nat -> Z) (rw : ResponseWriter) (input : verifyOTPReq) (w : world) :
  PhoneNumber input <> EmptyString ->
  OTP input <> EmptyString ->
  Status rw = None ->
  (fst (run clk (verifyOTPInRedis (PhoneNumber input) (OTP input)) w) = None
   <-> active_challenge (clk O) (PhoneNumber input) w = Some (OTP input))
  /\ (active_challenge (clk O) (PhoneNumber input) w = Some (OTP input) ->
      served_status (fst (run clk (handleVerifyOTP HMAC compact jwtSecret rw (inr input)) w))
      = Some StatusOK)
  /\ (active_challenge (clk O) (PhoneNumber input) w <> Some (OTP input) ->
      served_status (fst (run clk (handleVerifyOTP HMAC compact jwtSecret rw (inr input)) w))
      = Some StatusUnauthorized)
  /\ (forall clk0 w0 code c,
        run clk0 (storeOTPInRedis (PhoneNumber input) code) w0 = (None, w) ->
        active_challenge (clk O) (PhoneNumber input) w = Some c -> c = code).
Proof.
  intros Hphone Hotp Hrw.
  destruct (handleVerifyOTP_run HMAC compact jwtSecret clk rw input w Hphone Hotp Hrw)
    as [Hstatus _].
  split; [apply verifyOTPInRedis_active; exact Hotp|].
  rewrite Hstatus. split; [|split].
  - intros Hact. case_decide; congruence.
  - intros Hact. case_decide; congruence.
  - intros clk0 w0 code c Hstore Hact.
    exact (storeOTPInRedis_active clk0 _ code w0 w _ c Hstore Hact).
Qed.

(** C10.  When the phone number has no live key, [HGETALL] gives the
    empty map and [verifyOTPInRedis] returns nil exactly for the empty
    code; the handler answers a body with an empty [otp] with 400
    without sending any command. *)
Theorem verify_without_challenge
    (HMAC : jwt.SigningMethod -> string -> jwt.RegisteredClaims -> string)
    (compact : jwt.Token -> string) (jwtSecret : string)
    (clk : nat -> Z) (rw : ResponseWriter) (phone otp : string) (w : world) :
  Redis.lookup_live (Redis.mstime (clk O)) phone (cache w) = None ->
  Redis.HGETALL (Redis.mstime (clk O)) phone (cache w) = inr ∅
  /\ (fst (run clk (verifyOTPInRedis phone otp) w) = None <-> otp = EmptyString)
  /\ handleVerifyOTP HMAC compact jwtSecret rw (inr (mkVerifyOTPReq phone EmptyString))
     = Ret (Done (errorResponse rw StatusBadRequest "Phone number and OTP are required")).
Proof.
  intros Hnone. split; [|split].
  - unfold Redis.HGETALL. rewrite Hnone. reflexivity.
  - apply verifyOTPInRedis_absent. exact Hnone.
  - unfold handleVerifyOTP. cbn [PhoneNumber OTP String.eqb].
    rewrite orb_true_r. reflexivity.
Qed.

(** C7.  Verification only reads: [verifyOTPInRedis] returns the world
    it was given, whatever the outcome, and the handler leaves the
    keyspace unchanged for every body; so a request answered with 200
    is answered with 200 again at any later instant at which the
    record has not yet expired. *)
Theorem verify_keeps_record
    (HMAC : jwt.SigningMethod -> string -> jwt.RegisteredClaims -> string)
    (compact : jwt.Token -> string) (jwtSecret : string)
    (clk clk' : nat -> Z) (rw : ResponseWriter) (input : go_error + verifyOTPReq)
    (w : world) :
  (forall phone otp, snd (run clk (verifyOTPInRedis phone otp) w) = w)
  /\ cache (snd (run clk (handleVerifyOTP HMAC compact jwtSecret rw input) w)) = cache w
  /\ (Status rw = None ->
      served_status (fst (run clk (handleVerifyOTP HMAC compact jwtSecret rw input) w))
        = Some StatusOK ->
      (forall req e,
         input = inr req ->
         cache w !! PhoneNumber req = Some e ->
         Redis.expired (Redis.mstime (clk' O)) e = false) ->
      served_status (fst (run clk' (handleVerifyOTP HMAC compact jwtSecret rw input)
                     (snd (run clk (handleVerifyOTP HMAC compact jwtSecret rw input) w))))
        = Some StatusOK).
Proof.
  split; [|split].
  - intros phone otp. rewrite verifyOTPInRedis_run. reflexivity.
  - destruct input as [e|req].
    + reflexivity.
    + destruct (String.eqb_spec (PhoneNumber req) EmptyString) as [Hp|Hp];
        [unfold handleVerifyOTP; rewrite Hp; reflexivity|].
      destruct (String.eqb_spec (OTP req) EmptyString) as [Ho|Ho];
        [unfold handleVerifyOTP; rewrite Ho, orb_true_r; reflexivity|].
      destruct (Status rw) as [s|] eqn:Hrw.
      * unfold handleVerifyOTP.
        destruct (String.eqb_spec (PhoneNumber req) EmptyString); [contradiction|].
        destruct (String.eqb_spec (OTP req) EmptyString); [contradiction|].
        cbn [orb]. rewrite run_bind, verifyOTPInRedis_run. cbn [fst snd].
        destruct (match Redis.HGETALL _ _ _ with inl _ => _ | inr _ => _ end);
          [reflexivity|].
        rewrite run_bind.
        match goal with |- context [run ?c (createUserIfNotExists ?p) w] =>
          destruct (createUserIfNotExists_cache c p w) as [Hc [u Hu]];
          destruct (run c (createUserIfNotExists p) w) as [r w2] end.
        cbn [fst snd] in *. subst r. rewrite run_bind, generateJWT_run.
        cbn [fst snd run]. exact Hc.
      * apply (handleVerifyOTP_run HMAC compact jwtSecret clk rw req w Hp Ho Hrw).
  - intros Hrw H200 Hlive.
    destruct input as [e|req].
    { cbn in H200. rewrite Hrw in H200. discriminate. }
    destruct (String.eqb_spec (PhoneNumber req) EmptyString) as [Hp|Hp].
    { unfold handleVerifyOTP in H200. rewrite Hp in H200. cbn in H200.
      rewrite Hrw in H200. discriminate. }
    destruct (String.eqb_spec (OTP req) EmptyString) as [Ho|Ho].
    { unfold handleVerifyOTP in H200. rewrite Ho, orb_true_r in H200. cbn in H200.
      rewrite Hrw in H200. discriminate. }
    destruct (handleVerifyOTP_run HMAC compact jwtSecret clk rw req w Hp Ho Hrw)
      as [Hstatus Hcache].
    rewrite Hstatus in H200. case_decide as Hact; [|discriminate].
    match goal with |- context [snd ?r] => set (w1 := snd r) in * end.
    destruct (handleVerifyOTP_run HMAC compact jwtSecret clk' rw req w1 Hp Ho Hrw)
      as [Hstatus' _].
    rewrite Hstatus'. case_decide as Hact'; [reflexivity|]. exfalso. apply Hact'.
    rewrite (active_challenge_cache _ _ w1 w Hcache).
    unfold active_challenge, Redis.lookup_live in *.
    destruct (cache w !! PhoneNumber req) as [e|] eqn:He; [|discriminate].
    rewrite (Hlive req e eq_refl He).
    destruct (Redis.expired (Redis.mstime (clk O)) e); [discriminate|exact Hact].
Qed.

(** C6.  After a challenge [old] and then a challenge [new] have been
    stored for a phone number, the slot holds [new] only: [old] is
    refused from then on, no code other than [new] is accepted, and
    [new] is accepted until two minutes after its [EXPIRE], provided
    the record it overwrote did not run out between the [HSET] and the
    [EXPIRE] of the second store.  Codes are non-empty. *)
Theorem new_challenge_replaces_old (phone old new : string)
    (clk1 clk2 clk3 : nat -> Z) (w w1 w2 : world) :
  old <> new ->
  old <> EmptyString ->
  run clk1 (storeOTPInRedis phone old) w = (None, w1) ->
  run clk2 (storeOTPInRedis phone new) w1 = (None, w2) ->
  fst (run clk3 (verifyOTPInRedis phone old) w2) <> None
  /\ (forall c, c <> EmptyString ->
        fst (run clk3 (verifyOTPInRedis phone c) w2) = None -> c = new)
  /\ (Redis.mstime (clk1 1%nat) <= Redis.mstime (clk2 O) ->
      ~ (Redis.mstime (clk2 O) <= otp_deadline (clk1 1%nat) < Redis.mstime (clk2 1%nat)) ->
      Redis.mstime (clk3 O) <= otp_deadline (clk2 1%nat) ->
      fst (run clk3 (verifyOTPInRedis phone new) w2) = None).
Proof.
  intros Hne Hold Hstore1 Hstore2.
  destruct (storeOTPInRedis_slot _ _ _ _ _ Hstore1) as (h1 & ex1 & Hslot1 & _ & Hex1).
  destruct (storeOTPInRedis_slot _ _ _ _ _ Hstore2) as (h2 & ex2 & Hslot2 & Hotp2 & Hex2).
  pose proof (verifyOTPInRedis_slot clk3 phone new) as Hread.
  split; [|split].
  - intros Hok. apply (Hread old w2 h2 ex2 Hslot2 Hotp2) in Hok.
    destruct (Redis.expired _ _); congruence.
  - intros c Hc Hok. apply (Hread c w2 h2 ex2 Hslot2 Hotp2) in Hok.
    destruct (Redis.expired _ _); congruence.
  - intros Horder Hgap Hlive. apply (Hread new w2 h2 ex2 Hslot2 Hotp2).
    assert (ex2 = Some (otp_deadline (clk2 1%nat))) as ->.
    { destruct Hex2 as [->|(e & v & -> & Hw1 & Hrange)]; [reflexivity|].
      exfalso. rewrite Hslot1 in Hw1. injection Hw1 as _ ->.
      destruct Hex1 as [[= ->]|(e1 & v1 & [= ->] & _ & Hrange1)]; lia. }
    unfold Redis.expired. cbn [Redis.expire_at].
    destruct (Z.ltb_spec (otp_deadline (clk2 1%nat)) (Redis.mstime (clk3 O)));
      [lia | reflexivity].
Qed.

(** ** The upsert under interference *)

Lemma select_by_phone_number_None (phone : string) (t : Postgres.users_table) :
  Postgres.select_by_phone_number phone t = None ->
  ~ In phone (map Postgres.PhoneNumber (Postgres.rows t)).
Proof.
  unfold Postgres.select_by_phone_number. intros Hfind Hin.
  apply in_map_iff in Hin as (u & Hu & Hin).
  apply (find_none _ _ Hfind) in Hin.
  unfold Postgres.has_phone in Hin. rewrite bool_decide_eq_false in Hin. contradiction.
Qed.

(** The unique constraint holds after every insert, accepted or not. *)
Lemma insert_user_unique (now : Z) (phone : string) (t : Postgres.users_table) :
  phones_unique t -> phones_unique (snd (Postgres.insert_user now phone t)).
Proof.
  unfold phones_unique, Postgres.insert_user. intros Hnd.
  destruct (Postgres.select_by_phone_number phone t) eqn:Hsel; cbn [snd Postgres.rows].
  - exact Hnd.
  - rewrite map_app. cbn [map Postgres.PhoneNumber].
    apply NoDup_app. split; [exact Hnd|]. split.
    + intros x Hx Hin. apply list_elem_of_In in Hx, Hin.
      destruct Hin as [<-|[]].
      exact (select_by_phone_number_None _ _ Hsel Hx).
    + apply NoDup_singleton.
Qed.

(** C5, as the code has it.  The upsert first looks the phone number
    up.  A row found then is returned and nothing is written.  When the
    lookup misses, the insert is served against whatever the table has
    become meanwhile: if a row with the phone number is there by then,
    the unique constraint rejects the insert, the table keeps its rows
    (no duplicate identity) and the caller gets the error
    "failed to create a user: ..." instead of the existing row; if
    not, the new row is appended and returned. *)
Theorem upsert_surfaces_conflict (tid : nat) (phone : string) (t1 t2 : Z)
    (w w_mid : world) :
  match Postgres.select_by_phone_number phone (models w) with
  | Some u =>
      fst (step tid t1 (createUserIfNotExists phone) w) = (Ret (Some u, None), w)
  | None =>
      snd (fst (step tid t1 (createUserIfNotExists phone) w)) = w
      /\ let lookup_missed := fst (fst (step tid t1 (createUserIfNotExists phone) w)) in
         let after := fst (step tid t2 lookup_missed w_mid) in
         (phones_unique (models w_mid) -> phones_unique (models (snd after)))
         /\ match Postgres.select_by_phone_number phone (models w_mid) with
            | Some _ =>
                fst after =
                  Ret (None,
                       Some ("failed to create a user: "
                             +:+ Postgres.error_message Postgres.unique_violation))
                /\ Postgres.rows (models (snd after)) = Postgres.rows (models w_mid)
            | None =>
                exists u,
                  fst after = Ret (Some u, None)
                  /\ Postgres.PhoneNumber u = phone
                  /\ Postgres.rows (models (snd after))
                     = (Postgres.rows (models w_mid) ++ [u])%list
            end
  end.
Proof.
  unfold createUserIfNotExists, data.GetByPhoneNumber, data.Insert, mbind, prog_mbind.
  cbn [prog_bind step exec fst snd].
  destruct (Postgres.select_by_phone_number phone (models w)) as [u|]; [reflexivity|].
  split; [reflexivity|]. cbn [prog_bind step exec fst snd Postgres.PhoneNumber].
  pose proof (insert_user_unique t2 phone (models w_mid)) as Huniq.
  unfold Postgres.insert_user in *.
  destruct (Postgres.select_by_phone_number phone (models w_mid)) as [u'|];
    cbn [prog_bind fst snd models Postgres.rows Postgres.CreatedAt Postgres.PhoneNumber] in *.
  - split; [exact Huniq|]. split; reflexivity.
  - split; [exact Huniq|]. eexists. split; [reflexivity|]. split; reflexivity.
Qed.

(** Two verifications of one new phone number, interleaved: both look
    the number up before either inserts; the second insert hits the
    unique constraint and its caller is handed the error although the
    user exists by then. *)
Lemma upsert_race_returns_error :
  let phone := "+1234567890" in
  let sched := [(0%nat, 0); (1%nat, 0); (0%nat, 0); (1%nat, 0)] in
  let end_state :=
    fst (run_pool sched [createUserIfNotExists phone; createUserIfNotExists phone]
           empty_world) in
  fst end_state =
    [Ret (Some (Postgres.mkUser 1 0 phone), None);
     Ret (None,
          Some "failed to create a user: pq: duplicate key value violates unique constraint users_phone_number_key")]
  /\ Postgres.select_by_phone_number phone (models (snd end_state))
     = Some (Postgres.mkUser 1 0 phone).
Proof. vm_compute. split; reflexivity. Qed.

(** ** [strconv] and [strings] *)

Lemma string_of_uint_head (d : Decimal.uint) :
  d <> Decimal.Nil ->
  exists a s,
    NilZero.string_of_uint d = String a s
    /\ Ascii.eqb a "+" = false /\ Ascii.eqb a "-" = false.
Proof.
  destruct d; [contradiction|..]; intros _; cbn; eauto.
Qed.

Lemma ParseInt_FormatInt (i : Z) :
  int64_min <= i <= int64_max -> ParseInt (FormatInt i) = Some i.
Proof.
  intros Hrange. unfold FormatInt. destruct i as [|p|p]; [reflexivity| |].
  - cbn [Z.to_int NilZero.string_of_int].
    pose proof (DecimalPos.Unsigned.to_uint_nonnil p) as Hnil.
    pose proof (DecimalPos.Unsigned.of_to p) as Hof.
    pose proof (NilZero.usu _ Hnil) as Husu.
    assert (Hbound : (Z.pos p >=? - int64_min) = false)
      by (rewrite Z.geb_leb; apply Z.leb_gt; unfold int64_min, int64_max in *; lia).
    destruct (string_of_uint_head _ Hnil) as (a & s & Hs & Hplus & Hminus).
    rewrite Hs in *. unfold ParseInt. rewrite Hplus, Hminus, Husu.
    unfold N.of_uint. rewrite Hof. cbn [Z.of_N]. rewrite Hbound. reflexivity.
  - cbn [Z.to_int NilZero.string_of_int].
    pose proof (DecimalPos.Unsigned.to_uint_nonnil p) as Hnil.
    pose proof (DecimalPos.Unsigned.of_to p) as Hof.
    pose proof (NilZero.usu _ Hnil) as Husu.
    assert (Hbound : (Z.pos p >? - int64_min) = false)
      by (rewrite Z.gtb_ltb; apply Z.ltb_ge; unfold int64_min, int64_max in *; lia).
    unfold ParseInt. cbn [Ascii.eqb Bool.eqb].
    rewrite Husu. unfold N.of_uint. rewrite Hof. cbn [Z.of_N].
    rewrite Hbound. reflexivity.
Qed.

Lemma cut_space_app (s : string) (a b : string) :
  cut_space s = Some (a, b) -> s = a +:+ String " " b.
Proof.
  revert a. induction s as [|c s IH]; intros a; cbn [cut_space]; [discriminate|].
  destruct (Ascii.eqb_spec c " ") as [->|Hc].
  - intros [= <- <-]. reflexivity.
  - destruct (cut_space s) as [[a' b']|]; [|discriminate].
    intros [= <- <-].
    change (String c a' +:+ String " " b') with (String c (a' +:+ String " " b')).
    f_equal. apply IH. reflexivity.
Qed.

Lemma SplitN_Bearer (tokenStr : string) :
  SplitN_space_2 ("Bearer " +:+ tokenStr) = ["Bearer"; tokenStr].
Proof. reflexivity. Qed.

Lemma Bearer_not_empty (tokenStr : string) :
  String.eqb ("Bearer " +:+ tokenStr) EmptyString = false.
Proof. reflexivity. Qed.

(** ** Bearer tokens *)

Lemma positive_bits_inv (p : positive) : bits_positive (positive_bits p) = Some p.
Proof. induction p as [p IH|p IH|]; cbn; rewrite ?IH; reflexivity. Qed.

Lemma fields_token_inv (t : jwt.Token) : fields_token (token_fields t) = t.
Proof. destruct t as [[| | |alg] [sub exp nbf iat] sig]; reflexivity. Qed.

(** The stand-in parser inverts the stand-in serialiser. *)
Lemma demo_parse_compact_inv (t : jwt.Token) :
  demo_parse_compact (demo_compact t) = Some t.
Proof.
  unfold demo_parse_compact, demo_compact.
  rewrite positive_bits_inv. cbn [mbind option_bind].
  rewrite decode_encode. cbn [fmap option_fmap option_map].
  rewrite fields_token_inv. reflexivity.
Qed.

Section Bearer.

Variable HMAC : jwt.SigningMethod -> string -> jwt.RegisteredClaims -> string.
Variable compact : jwt.Token -> string.
Variable parse_compact : string -> option jwt.Token.
Variable jwtSecret : string.

(** The token [generateJWT] issues at the instant [now]. *)
Let issued (now userID ttl : Z) : jwt.Token :=
  let claims := jwt.mkClaims (FormatInt userID)
                  (Some (jwt.NewNumericDate (now + ttl))) None
                  (Some (jwt.NewNumericDate now)) in
  jwt.mkToken jwt.HS256 claims (HMAC jwt.HS256 jwtSecret claims).

Lemma generateJWT_issued (clk : nat -> Z) (userID ttl : Z) (w : world) :
  run clk (generateJWT HMAC compact jwtSecret userID ttl) w
  = ((compact (issued (clk O) userID ttl), None), w).
Proof. reflexivity. Qed.

Hypothesis parse_compact_inv : forall t, parse_compact (compact t) = Some t.

Lemma ParseWithClaims_issued (clk : nat -> Z) (now userID ttl : Z) (w : world) :
  run clk (ParseWithClaims HMAC parse_compact jwtSecret
             (compact (issued now userID ttl))) w
  = (if clk O <? jwt.NewNumericDate (now + ttl)
     then inr (issued now userID ttl) else inl "token is expired", w).
Proof.
  unfold ParseWithClaims. rewrite parse_compact_inv.
  cbn [issued jwt.Method jwt.Claims jwt.Signature jwt.is_SigningMethodHMAC negb].
  rewrite String.eqb_refl. cbn [negb run exec].
  unfold jwt.Validate. cbn [jwt.ExpiresAt jwt.NotBefore].
  destruct (clk O <? _); reflexivity.
Qed.

Lemma ParseWithClaims_issued_served (clk : nat -> Z) (now userID ttl : Z) (w : world) :
  commands_served clk (ParseWithClaims HMAC parse_compact jwtSecret
                         (compact (issued now userID ttl))) w = 1%nat.
Proof.
  unfold ParseWithClaims. rewrite parse_compact_inv.
  cbn [issued jwt.Method jwt.Claims jwt.Signature jwt.is_SigningMethodHMAC negb].
  rewrite String.eqb_refl. cbn [negb commands_served exec].
  destruct (jwt.Validate _ _); reflexivity.
Qed.

(** What [authenticate] does with a request that carries an issued
    token as its bearer credential. *)
Lemma authenticate_issued (clk : nat -> Z) (now userID ttl : Z) (w : world)
    (next : handler) (rw : ResponseWriter) (ctx : option data.user_ptr) :
  int64_min <= userID <= int64_max ->
  let r := mkRequest ("Bearer " +:+ compact (issued now userID ttl)) ctx in
  let rw' := Header_Add "Vary" "Authorization" rw in
  run clk (authenticate HMAC parse_compact jwtSecret next rw r) w =
    if clk O <? jwt.NewNumericDate (now + ttl)
    then match Postgres.select_by_id userID (models w) with
         | Some u =>
             run (fun i => clk (2 + i)%nat) (next rw' (contextSetUser r (data.Ptr u))) w
         | None => (Done (errorResponse rw' StatusUnauthorized "User not found"), w)
         end
    else (Done (errorResponse rw' StatusUnauthorized "Invalid or expired token"), w).
Proof.
  intros Hrange r rw'. unfold authenticate.
  cbn [Authorization r]. rewrite Bearer_not_empty, SplitN_Bearer.
  cbn [length Nat.eqb negb nth orb String.eqb Ascii.eqb Bool.eqb].
  rewrite run_bind, ParseWithClaims_issued, ParseWithClaims_issued_served.
  destruct (clk O <? _); cbn [fst snd]; [|reflexivity].
  cbn [issued jwt.Claims jwt.Subject].
  pose proof (ParseInt_FormatInt userID Hrange) as Hparse.
  destruct (String.eqb_spec (FormatInt userID) EmptyString) as [Hempty|_];
    [rewrite Hempty in Hparse; discriminate|].
  rewrite Hparse, run_bind.
  unfold data.GetByID. cbn [run exec fst snd commands_served].
  destruct (Postgres.select_by_id userID (models w)) as [u|]; cbn [run fst snd].
  - reflexivity.
  - reflexivity.
Qed.

End Bearer.

Lemma NewNumericDate_floor (t : Z) :
  jwt.NewNumericDate t <= t < jwt.NewNumericDate t + GoTime.Second.
Proof.
  unfold jwt.NewNumericDate, GoTime.Truncate, jwt.TimePrecision.
  change GoTime.Second with 1000000000.
  pose proof (Z.div_mod t 1000000000 ltac:(lia)).
  pose proof (Z.mod_pos_bound t 1000000000 ltac:(lia)). lia.
Qed.

Lemma NewNumericDate_add_seconds (t d : Z) :
  d mod GoTime.Second = 0 ->
  jwt.NewNumericDate (t + d) = jwt.NewNumericDate t + d.
Proof.
  unfold jwt.NewNumericDate, GoTime.Truncate, jwt.TimePrecision.
  change GoTime.Second with 1000000000. intros Hd.
  apply Z.div_exact in Hd; [|lia].
  rewrite Hd at 1. rewrite (Z.mul_comm 1000000000), Z.div_add by lia.
  lia.
Qed.

(** C3, as the code has it.  A token issued for user [S] with time to
    live [T] carries as expiry the issue instant plus [T], rounded down
    to the second.  Presented as bearer credential strictly before
    that expiry it passes the validation in [authenticate] and resolves
    to [S] (the user with id [S] is looked up and, if found, handed to
    the next handler); presented at or after the expiry it is answered
    with 401.  The expiry is at most one second short of the issue
    instant plus [T], and when [T] is a whole number of seconds it is
    the token's issued-at claim plus [T]. *)
Theorem issued_token_validity
    (HMAC : jwt.SigningMethod -> string -> jwt.RegisteredClaims -> string)
    (compact : jwt.Token -> string) (parse_compact : string -> option jwt.Token)
    (jwtSecret : string) (S T : Z) (clk clk' : nat -> Z) (w w' : world)
    (next : handler) (rw : ResponseWriter) :
  (forall t, parse_compact (compact t) = Some t) ->
  int64_min <= S <= int64_max ->
  let token := fst (fst (run clk (generateJWT HMAC compact jwtSecret S T) w)) in
  let expiry := jwt.NewNumericDate (clk O + T) in
  let r := mkRequest ("Bearer " +:+ token) None in
  let rw' := Header_Add "Vary" "Authorization" rw in
  (clk' O < expiry ->
   run clk' (authenticate HMAC parse_compact jwtSecret next rw r) w' =
     match Postgres.select_by_id S (models w') with
     | Some u =>
         run (fun i => clk' (2 + i)%nat) (next rw' (contextSetUser r (data.Ptr u))) w'
     | None => (Done (errorResponse rw' StatusUnauthorized "User not found"), w')
     end)
  /\ (expiry <= clk' O ->
      run clk' (authenticate HMAC parse_compact jwtSecret next rw r) w' =
        (Done (errorResponse rw' StatusUnauthorized "Invalid or expired token"), w'))
  /\ expiry <= clk O + T < expiry + GoTime.Second
  /\ (T mod GoTime.Second = 0 -> expiry = jwt.NewNumericDate (clk O) + T).
Proof.
  intros Hinv Hrange token expiry r rw'.
  subst token r. rewrite generateJWT_issued. cbn [fst].
  pose proof (authenticate_issued HMAC compact parse_compact jwtSecret Hinv
                clk' (clk O) S T w' next rw None Hrange) as Hauth.
  cbv zeta in Hauth. fold rw' expiry in Hauth.
  split; [|split; [|split]].
  - intros Hbefore. rewrite Hauth.
    destruct (Z.ltb_spec (clk' O) expiry); [reflexivity | lia].
  - intros Hafter. rewrite Hauth.
    destruct (Z.ltb_spec (clk' O) expiry); [lia | reflexivity].
  - apply NewNumericDate_floor.
  - apply NewNumericDate_add_seconds.
Qed.

(** The claim read with the issue instant as [issuedAt]: a token issued
    at 0.5 s for one second is refused at 1.2 s, before 0.5 s + 1 s.
    Read with the token's issued-at claim: a token issued at 0.5 s for
    1.5 s has issued-at 0 s and is still accepted at 1.7 s, after
    0 s + 1.5 s. *)
Lemma token_lifetime_is_truncated :
  let rw := mkResponseWriter [] None [] in
  let present token at_ :=
    served_status
      (fst (run (instants at_ [])
              (authenticate demo_HMAC demo_parse_compact "secret" demo_protected rw
                 (mkRequest ("Bearer " +:+ token) None))
              world_with_user_7)) in
  let issue ttl :=
    fst (fst (run (instants 500000000 [])
                (generateJWT demo_HMAC demo_compact "secret" 7 ttl) empty_world)) in
  (1200000000 < 500000000 + 1 * GoTime.Second
   /\ present (issue (1 * GoTime.Second)) 1200000000 = Some StatusUnauthorized)
  /\ (jwt.NewNumericDate 500000000 + 1500 * GoTime.Millisecond < 1700000000
      /\ present (issue (1500 * GoTime.Millisecond)) 1700000000 = Some StatusOK).
Proof.
  cbv beta zeta. rewrite !generateJWT_issued. cbn [fst].
  rewrite !(authenticate_issued demo_HMAC demo_compact demo_parse_compact "secret"
              demo_parse_compact_inv) by (vm_compute; split; discriminate).
  split; (split; [reflexivity|]); reflexivity.
Qed.

(** ** The authorization middleware *)

(** C9.  On a route wrapped in [authenticate] and
    [requireAuthenticatedUser], whatever the protected handler is: a
    request without [Authorization] header goes on as anonymous and is
    answered 401 "Unauthorized" by the guard; and every request is
    either answered with a 401 that does not depend on the handler
    (the handler is not run, no store is written), or it carried
    "Bearer <token>" where the token parses, names an HMAC method,
    bears the tag of the server secret, passes the claims validation
    at that instant, and its subject is the id of an existing user,
    and then the handler is run with that user in the context. *)
Theorem protected_requires_valid_bearer
    (HMAC : jwt.SigningMethod -> string -> jwt.RegisteredClaims -> string)
    (parse_compact : string -> option jwt.Token) (jwtSecret : string)
    (clk : nat -> Z) (rw : ResponseWriter) (r : Request) (w : world) :
  let rw' := Header_Add "Vary" "Authorization" rw in
  let route next :=
    authenticate HMAC parse_compact jwtSecret (requireAuthenticatedUser next) rw r in
  (Authorization r = EmptyString ->
   forall next,
     run clk (route next) w = (Done (errorResponse rw' StatusUnauthorized "Unauthorized"), w))
  /\ ((exists msg, forall next,
         run clk (route next) w = (Done (errorResponse rw' StatusUnauthorized msg), w))
      \/ (exists tokenStr t userID u,
            Authorization r = "Bearer " +:+ tokenStr
            /\ parse_compact tokenStr = Some t
            /\ jwt.is_SigningMethodHMAC (jwt.Method t) = true
            /\ jwt.Signature t = HMAC (jwt.Method t) jwtSecret (jwt.Claims t)
            /\ jwt.Validate (clk O) (jwt.Claims t) = None
            /\ ParseInt (jwt.Subject (jwt.Claims t)) = Some userID
            /\ Postgres.select_by_id userID (models w) = Some u
            /\ forall next,
                 run clk (route next) w =
                   run (fun i => clk (2 + i)%nat)
                       (next rw' (contextSetUser r (data.Ptr u))) w)).
Proof.
  intros rw' route. subst route. unfold authenticate. fold rw'. split.
  - intros ->. reflexivity.
  - destruct (String.eqb_spec (Authorization r) EmptyString) as [Hauth|Hauth].
    { left. eexists. intros next. reflexivity. }
    unfold SplitN_space_2.
    destruct (cut_space (Authorization r)) as [[scheme tokenStr]|] eqn:Hcut;
      cbn [length Nat.eqb negb orb nth];
      [|left; eexists; intros next; reflexivity].
    destruct (String.eqb_spec scheme "Bearer") as [->|Hscheme]; cbn [negb];
      [|left; eexists; intros next; reflexivity].
    apply cut_space_app in Hcut.
    unfold ParseWithClaims, mbind, prog_mbind.
    destruct (parse_compact tokenStr) as [t|] eqn:Hparse;
      [|left; eexists; intros next; reflexivity].
    destruct (jwt.is_SigningMethodHMAC (jwt.Method t)) eqn:Hmethod; cbn [negb];
      [|left; eexists; intros next; reflexivity].
    destruct (String.eqb_spec (jwt.Signature t)
                (HMAC (jwt.Method t) jwtSecret (jwt.Claims t))) as [Hsig|Hsig];
      cbn [negb]; [|left; eexists; intros next; reflexivity].
    cbn [prog_bind run exec].
    destruct (jwt.Validate (clk O) (jwt.Claims t)) as [err|] eqn:Hvalid;
      cbn [prog_bind run]; [left; eexists; intros next; reflexivity|].
    destruct (String.eqb (jwt.Subject (jwt.Claims t)) EmptyString);
      [left; eexists; intros next; reflexivity|].
    destruct (ParseInt (jwt.Subject (jwt.Claims t))) as [userID|] eqn:Hid;
      [|left; eexists; intros next; reflexivity].
    unfold data.GetByID. cbn [prog_bind run exec].
    destruct (Postgres.select_by_id userID (models w)) as [u|] eqn:Huser;
      cbn [prog_bind run]; [|left; eexists; intros next; reflexivity].
    right. exists tokenStr, t, userID, u.
    repeat (split; [assumption|]). intros next. reflexivity.
Qed.

(** ** Concurrent rate-limit calls *)

(** The script leaves every counter at 1 or more, and so does every
    other command. *)
Lemma exec_counters_positive {R : Type} (now : Z) (c : command R) (w : world) :
  counters_positive (cache w) -> counters_positive (cache (snd (exec now c w))).
Proof.
  intros Hpos. destruct c; cbn [exec]; try exact Hpos.
  - unfold Redis.otpRateLimitScript, Redis.EXISTS, Redis.INCR.
    destruct (Redis.lookup_live _ _ _) as [[[n|h] ex]|] eqn:Hlive; cbn [Z.eqb].
    + destruct (n <? int64_max); cbn [snd cache]; [|exact Hpos].
      unfold Redis.lookup_live in Hlive.
      destruct (cache w !! key) as [e|] eqn:He; [|discriminate].
      destruct (Redis.expired _ e); [discriminate|]. injection Hlive as ->.
      intros k m ex' Hk. destruct (decide (key = k)) as [<-|Hne].
      * rewrite lookup_insert_eq in Hk. injection Hk as <- <-.
        specialize (Hpos _ _ _ He). lia.
      * rewrite lookup_insert_ne in Hk by exact Hne. exact (Hpos _ _ _ Hk).
    + exact Hpos.
    + cbn [snd cache]. intros k m ex' Hk. destruct (decide (key = k)) as [<-|Hne].
      * unfold Redis.SET_EX in Hk. rewrite lookup_insert_eq in Hk.
        injection Hk as <- <-. lia.
      * unfold Redis.SET_EX in Hk. rewrite lookup_insert_ne in Hk by exact Hne.
        exact (Hpos _ _ _ Hk).
  - unfold Redis.HSET.
    destruct (Redis.lookup_live _ _ _) as [[[n|h] ex]|]; cbn [snd cache];
      [exact Hpos| |];
      intros k m ex' Hk; (destruct (decide (key = k)) as [<-|Hne];
        [rewrite lookup_insert_eq in Hk; discriminate
        |rewrite lookup_insert_ne in Hk by exact Hne; exact (Hpos _ _ _ Hk)]).
  - unfold Redis.EXPIRE.
    destruct (Redis.lookup_live _ _ _) as [e|] eqn:Hlive; cbn [snd cache];
      [|exact Hpos].
    unfold Redis.lookup_live in Hlive.
    destruct (cache w !! key) as [e0|] eqn:He; [|discriminate].
    destruct (Redis.expired _ e0); [discriminate|]. injection Hlive as ->.
    intros k m ex' Hk. destruct (decide (key = k)) as [<-|Hne].
    + rewrite lookup_insert_eq in Hk. injection Hk as Hval _.
      destruct e as [v ex0]. cbn [Redis.val] in Hval. subst v.
      exact (Hpos _ _ _ He).
    + rewrite lookup_insert_ne in Hk by exact Hne. exact (Hpos _ _ _ Hk).
  - destruct (Postgres.insert_user _ _ _). exact Hpos.
Qed.

Section ConcurrentCalls.

Variable phone : string.
Let key := rate_limit_key phone.

(** A call is one command: the thread is finished after one step,
    and the step is one whole run of the script. *)
Lemma step_allowOTPRequest (tid : nat) (t : Z) (w : world) :
  exists res,
    step tid t (allowOTPRequest phone) w =
      (Ret res, snd (exec t (ScriptRun key 600) w),
       [Event tid t (ScriptRun key 600) (fst (exec t (ScriptRun key 600) w))]).
Proof.
  unfold allowOTPRequest. cbn [step].
  change (otpRateLimitWindow / GoTime.Second) with 600.
  fold (rate_limit_key phone). fold key.
  destruct (exec t (ScriptRun key 600) w) as [[err|arr] w1]; cbn [fst snd].
  - eexists. reflexivity.
  - destruct (negb _); eexists; reflexivity.
Qed.

Lemma count_fresh_insert (pool : list (prog (bool * go_error))) (i : nat) p q :
  pool !! i = Some p -> is_call p = true -> is_call q = false ->
  S (length (List.filter is_call (<[i := q]> pool)))
  = length (List.filter is_call pool).
Proof.
  revert i. induction pool as [|x pool IH]; intros [|i] Hi Hp Hq; try discriminate.
  - cbn in Hi. injection Hi as ->. cbn. rewrite Hp, Hq. reflexivity.
  - cbn in Hi. cbn. destruct (is_call x); cbn; rewrite <- (IH i Hi Hp Hq); reflexivity.
Qed.

(** Every interleaving of calls for one phone number is a serial
    execution of whole script runs, at instants of the schedule, at
    most one per call. *)
Lemma run_pool_serial (sched : list (nat * Z)) :
  forall (pool : list (prog (bool * go_error))) (w : world),
    Forall (fresh_or_done phone) pool ->
    exists ts,
      (forall x, x ∈ ts -> x ∈ sched)
      /\ (length ts <= length (List.filter is_call pool))%nat
      /\ (snd (run_pool sched pool w), snd (fst (run_pool sched pool w)))
         = serial_scripts key ts w.
Proof.
  induction sched as [|[tid t] sched IH]; intros pool w Hpool.
  - exists []. cbn. split; [intros x Hx; inversion Hx|]. split; [lia|reflexivity].
  - cbn [run_pool]. destruct (pool !! tid) as [p|] eqn:Hp.
    + pose proof (proj1 (Forall_lookup _ _) Hpool _ _ Hp) as [->|Hdone].
      * destruct (step_allowOTPRequest tid t w) as [res Hstep]. rewrite Hstep.
        destruct (IH (<[tid := Ret res]> pool) (snd (exec t (ScriptRun key 600) w)))
          as (ts & Hts & Hlen & Hrun).
        { apply Forall_insert; [exact Hpool | right; reflexivity]. }
        exists ((tid, t) :: ts). split; [|split].
        -- intros x Hx. apply elem_of_cons in Hx as [->|Hx];
             [left | right; apply Hts; exact Hx].
        -- rewrite <- (count_fresh_insert pool tid _ (Ret res) Hp eq_refl eq_refl).
           cbn [length]. lia.
        -- destruct (run_pool sched _ _) as [[pool' w'] evs]. cbn [fst snd] in *.
           cbn [serial_scripts].
           destruct (exec t (ScriptRun key 600) w) as [r w1]. cbn [fst snd] in *.
           rewrite <- Hrun. reflexivity.
      * destruct p as [res|R c k]; [|discriminate]. cbn [step].
        rewrite list_insert_id by exact Hp.
        destruct (IH pool w Hpool) as (ts & Hts & Hlen & Hrun).
        exists ts. split; [|split].
        -- intros x Hx. right. apply Hts. exact Hx.
        -- exact Hlen.
        -- destruct (run_pool sched pool w) as [[pool' w'] evs]. exact Hrun.
    + destruct (IH pool w Hpool) as (ts & Hts & Hlen & Hrun).
      exists ts. split; [|split]; [|exact Hlen|exact Hrun].
      intros x Hx. right. apply Hts. exact Hx.
Qed.

(** The three ways a script run ends. *)
Lemma script_cases (t : Z) (w : world) :
  (Redis.lookup_live (Redis.mstime t) key (cache w) = None
   /\ exec t (ScriptRun key 600) w =
        (inr [1; 600],
         World (<[key := Redis.Entry (Redis.VInt 1) (Some (Redis.mstime t + 600 * 1000))]>
                  (cache w)) (models w)))
  \/ (exists n ex ttl,
        Redis.lookup_live (Redis.mstime t) key (cache w)
          = Some (Redis.Entry (Redis.VInt n) ex)
        /\ exec t (ScriptRun key 600) w =
             (inr [n + 1; ttl],
              World (<[key := Redis.Entry (Redis.VInt (n + 1)) ex]> (cache w)) (models w)))
  \/ (exists e, exec t (ScriptRun key 600) w = (inl e, World (cache w) (models w))).
Proof.
  cbn [exec]. unfold Redis.otpRateLimitScript, Redis.EXISTS, Redis.INCR.
  destruct (Redis.lookup_live _ _ _) as [[[n|h] ex]|]; cbn [Z.eqb].
  - destruct (n <? int64_max).
    + right. left. eexists _, _, _. split; reflexivity.
    + right. right. eexists. reflexivity.
  - right. right. eexists. reflexivity.
  - left. split; reflexivity.
Qed.

Lemma lookup_live_Some (ms : Z) (k : string) (db : gmap string Redis.entry) e :
  Redis.lookup_live ms k db = Some e -> db !! k = Some e /\ Redis.expired ms e = false.
Proof.
  unfold Redis.lookup_live. destruct (db !! k) as [e0|]; [|discriminate].
  destruct (Redis.expired ms e0) eqn:Hexp; [discriminate|].
  intros [= <-]. split; [reflexivity | exact Hexp].
Qed.

End ConcurrentCalls.

Lemma NoDup_pair (a b : Z) : a <> b -> NoDup [a; b].
Proof.
  intros Hab. apply NoDup_cons. split; [|apply NoDup_singleton].
  rewrite list_elem_of_singleton. exact Hab.
Qed.

(** C8.  Two concurrent calls for one phone number, under any schedule
    whose instants lie within one window length of each other: the
    run is a serial execution of whole script runs (each call is one
    command, and the script is served as one step), the two calls
    never report the same counter value, and the counter in the store
    is the value reported last, so no increment is lost. *)
Theorem concurrent_calls_are_serial (phone : string) (sched : list (nat * Z)) (w : world) :
  counters_positive (cache w) ->
  (forall x y, x ∈ sched -> y ∈ sched -> Redis.mstime (snd y) <= window_end (snd x)) ->
  let pool := [allowOTPRequest phone; allowOTPRequest phone] in
  let evs := snd (run_pool sched pool w) in
  let w' := snd (fst (run_pool sched pool w)) in
  (exists ts,
     (forall x, x ∈ ts -> x ∈ sched)
     /\ (length ts <= 2)%nat
     /\ (evs, w') = serial_scripts (rate_limit_key phone) ts w)
  /\ NoDup (omap script_count evs)
  /\ (forall c,
        last (omap script_count evs) = Some c ->
        exists ex,
          cache w' !! rate_limit_key phone = Some (Redis.Entry (Redis.VInt c) ex)).
Proof.
  intros Hpos Hwin pool evs w'.
  destruct (run_pool_serial phone sched pool w) as (ts & Hts & Hlen & Hrun).
  { repeat constructor. }
  fold evs w' in Hrun. cbn in Hlen.
  split; [exists ts; auto|].
  assert (Hevs : evs = fst (serial_scripts (rate_limit_key phone) ts w))
    by (rewrite <- Hrun; reflexivity).
  assert (Hw' : w' = snd (serial_scripts (rate_limit_key phone) ts w))
    by (rewrite <- Hrun; reflexivity).
  rewrite Hevs, Hw'. clear Hevs Hw' Hrun evs w'.
  destruct ts as [|[i t] [|[j t'] [|]]]; [| | |cbn in Hlen; lia].
  - cbn. split; [apply NoDup_nil_2 | discriminate].
  - cbn [serial_scripts].
    destruct (script_cases phone t w) as [[_ ->]|[(n & ex & ttl & _ & ->)|[e ->]]];
      cbn [fst snd omap script_count last cache];
      (split; [first [apply NoDup_singleton | apply NoDup_nil_2]|]);
      intros c Hc; try discriminate Hc;
      injection Hc as <-; eexists; apply lookup_insert_eq.
  - assert (Hclose : Redis.mstime t' <= Redis.mstime t + 600 * 1000).
    { apply (Hwin (i, t) (j, t')); apply Hts;
        [apply list_elem_of_here | apply list_elem_of_further, list_elem_of_here]. }
    cbn [serial_scripts].
    destruct (script_cases phone t w)
      as [[Hl1 ->]|[(n & ex & ttl & Hl1 & ->)|[e ->]]].
    + (* the first call opens the window *)
      destruct (script_cases phone t' (World (<[rate_limit_key phone :=
                  Redis.Entry (Redis.VInt 1) (Some (Redis.mstime t + 600 * 1000))]>
                  (cache w)) (models w)))
        as [[Hl2 ->]|[(m & ex2 & ttl2 & Hl2 & ->)|[e ->]]];
        cbn [cache models] in *.
      * exfalso. unfold Redis.lookup_live in Hl2. rewrite lookup_insert_eq in Hl2.
        unfold Redis.expired in Hl2. cbn [Redis.expire_at] in Hl2.
        destruct (Z.ltb_spec (Redis.mstime t + 600 * 1000) (Redis.mstime t'));
          [lia | discriminate].
      * apply lookup_live_Some in Hl2 as [Hl2 _]. rewrite lookup_insert_eq in Hl2.
        injection Hl2 as <- <-.
        cbn [fst snd omap script_count last cache].
        split; [apply NoDup_pair; lia|]. intros c [= <-]. eexists. apply lookup_insert_eq.
      * cbn [fst snd omap script_count last cache].
        split; [apply NoDup_singleton|]. intros c [= <-]. eexists. apply lookup_insert_eq.
    + (* the first call increments a live counter *)
      apply lookup_live_Some in Hl1 as [Hl1 _]. pose proof (Hpos _ _ _ Hl1) as Hn.
      destruct (script_cases phone t' (World (<[rate_limit_key phone :=
                  Redis.Entry (Redis.VInt (n + 1)) ex]> (cache w)) (models w)))
        as [[Hl2 ->]|[(m & ex2 & ttl2 & Hl2 & ->)|[e ->]]];
        cbn [cache models] in *.
      * cbn [fst snd omap script_count last cache].
        split; [apply NoDup_pair; lia|]. intros c [= <-]. eexists. apply lookup_insert_eq.
      * apply lookup_live_Some in Hl2 as [Hl2 _]. rewrite lookup_insert_eq in Hl2.
        injection Hl2 as <- <-.
        cbn [fst snd omap script_count last cache].
        split; [apply NoDup_pair; lia|]. intros c [= <-]. eexists. apply lookup_insert_eq.
      * cbn [fst snd omap script_count last cache].
        split; [apply NoDup_singleton|]. intros c [= <-]. eexists. apply lookup_insert_eq.
    + (* the first call fails and changes nothing *)
      destruct (script_cases phone t' (World (cache w) (models w)))
        as [[Hl2 ->]|[(m & ex2 & ttl2 & Hl2 & ->)|[e2 ->]]];
        cbn [fst snd omap script_count last cache];
        (split; [first [apply NoDup_singleton | apply NoDup_nil_2]|]);
        intros c Hc; try discriminate Hc;
        injection Hc as <-; eexists; apply lookup_insert_eq.
Qed.

(** * The statements at concrete inputs *)

(** Four requests within a window: three admitted, the fourth refused. *)
Lemma rate_limit_window_witness :
  fst (serve "+1234567890" [0; 1000000000; 2000000000; 3000000000] empty_world)
  = [(true, None); (true, None); (true, None); (false, None)].
Proof.
  destruct (rate_limit_window "+1234567890" empty_world 0
              [1000000000; 2000000000; 3000000000]) as [Hserve _].
  - reflexivity.
  - repeat constructor; vm_compute; discriminate.
  - vm_compute. discriminate.
  - rewrite Hserve. reflexivity.
Defined.

(** The stored code is accepted with 200 one second later. *)
Lemma verify_exactly_active_challenge_witness :
  served_status (fst (run (instants 1000000000 [])
                 (handleVerifyOTP demo_HMAC demo_compact "secret" blank
                    (inr (mkVerifyOTPReq "+1234567890" "0042")))
                 challenge_world))
  = Some StatusOK.
Proof.
  apply (verify_exactly_active_challenge demo_HMAC demo_compact "secret"
           (instants 1000000000 []) blank (mkVerifyOTPReq "+1234567890" "0042")
           challenge_world).
  - discriminate.
  - discriminate.
  - reflexivity.
  - vm_compute. reflexivity.
Defined.

(** A token issued to user 7 for 48 hours opens the protected route an
    hour later. *)
Lemma issued_token_validity_witness :
  let token :=
    fst (fst (run (instants 0 [])
                (generateJWT demo_HMAC demo_compact "secret" 7 (48 * GoTime.Hour))
                empty_world)) in
  served_status
    (fst (run (instants (1 * GoTime.Hour) [])
            (authenticate demo_HMAC demo_parse_compact "secret" demo_protected blank
               (mkRequest ("Bearer " +:+ token) None))
            world_with_user_7))
  = Some StatusOK.
Proof.
  intros token.
  destruct (issued_token_validity demo_HMAC demo_compact demo_parse_compact "secret"
              7 (48 * GoTime.Hour) (instants 0 []) (instants (1 * GoTime.Hour) [])
              empty_world world_with_user_7 demo_protected blank)
    as [Hvalid _].
  - exact demo_parse_compact_inv.
  - vm_compute. split; discriminate.
  - fold token in Hvalid. rewrite Hvalid by (vm_compute; reflexivity). reflexivity.
Defined.

(** Without a challenge the empty code passes [verifyOTPInRedis]. *)
Lemma verify_without_challenge_witness :
  fst (run (instants 0 []) (verifyOTPInRedis "+1234567890" EmptyString) empty_world) = None.
Proof.
  apply (verify_without_challenge demo_HMAC demo_compact "secret" (instants 0 []) blank
           "+1234567890" EmptyString empty_world).
  - reflexivity.
  - reflexivity.
Defined.

(** 1111 is stored, five seconds later 2222: one second on, 1111 is
    refused and 2222 accepted. *)
Lemma new_challenge_replaces_old_witness :
  let phone := "+1234567890" in
  let clk1 := instants 0 [1000000] in
  let clk2 := instants 5000000000 [5001000000] in
  let clk3 := instants 6000000000 [] in
  let w1 := snd (run clk1 (storeOTPInRedis phone "1111") empty_world) in
  let w2 := snd (run clk2 (storeOTPInRedis phone "2222") w1) in
  fst (run clk3 (verifyOTPInRedis phone "1111") w2) <> None
  /\ fst (run clk3 (verifyOTPInRedis phone "2222") w2) = None.
Proof.
  intros phone clk1 clk2 clk3 w1 w2.
  destruct (new_challenge_replaces_old phone "1111" "2222" clk1 clk2 clk3
              empty_world w1 w2) as (Hold & _ & Hnew).
  - discriminate.
  - discriminate.
  - reflexivity.
  - reflexivity.
  - split; [exact Hold|]. apply Hnew.
    + vm_compute. discriminate.
    + vm_compute. intros [_ H]. discriminate H.
    + vm_compute. discriminate.
Defined.

(** The request answered with 200 is answered with 200 again a minute
    later. *)
Lemma verify_keeps_record_witness :
  let h := handleVerifyOTP demo_HMAC demo_compact "secret" blank
             (inr (mkVerifyOTPReq "+1234567890" "0042")) in
  served_status (fst (run (instants 60000000000 []) h
                 (snd (run (instants 1000000000 []) h challenge_world))))
  = Some StatusOK.
Proof.
  intros h.
  apply (verify_keeps_record demo_HMAC demo_compact "secret"
           (instants 1000000000 []) (instants 60000000000 []) blank
           (inr (mkVerifyOTPReq "+1234567890" "0042")) challenge_world).
  - reflexivity.
  - vm_compute. reflexivity.
  - intros req e [= <-] He. vm_compute in He. injection He as <-. reflexivity.
Defined.

(** Two concurrent first requests: the counts 1 and 2. *)
Lemma concurrent_calls_are_serial_witness :
  let sched := [(1%nat, 0); (0%nat, 5000000)] in
  NoDup (omap script_count
           (snd (run_pool sched
                   [allowOTPRequest "+1234567890"; allowOTPRequest "+1234567890"]
                   empty_world))).
Proof.
  intros sched.
  apply (concurrent_calls_are_serial "+1234567890" sched empty_world).
  - intros k n ex Hk. unfold empty_world in Hk. cbn [cache] in Hk.
    rewrite lookup_empty in Hk. discriminate Hk.
  - intros x y Hx Hy.
    apply elem_of_cons in Hx as [->|Hx]; [|apply list_elem_of_singleton in Hx as ->];
      (apply elem_of_cons in Hy as [->|Hy]; [|apply list_elem_of_singleton in Hy as ->]);
      vm_compute; discriminate.
Defined.

(** A request without credential is refused by the guard. *)
Lemma protected_requires_valid_bearer_witness :
  run (instants 0 [])
      (authenticate demo_HMAC demo_parse_compact "secret"
         (requireAuthenticatedUser demo_protected) blank (mkRequest EmptyString None))
      world_with_user_7
  = (Done (errorResponse (Header_Add "Vary" "Authorization" blank)
             StatusUnauthorized "Unauthorized"),
     world_with_user_7).
Proof.
  apply (protected_requires_valid_bearer demo_HMAC demo_parse_compact "secret"
           (instants 0 []) blank (mkRequest EmptyString None) world_with_user_7).
  reflexivity.
Defined.

(** The lookup misses on the empty table; by the time of the insert the
    user is there, and the caller gets the error. *)
Lemma upsert_surfaces_conflict_witness :
  let lookup_missed :=
    fst (fst (step 0 0 (createUserIfNotExists "+1234567890") empty_world)) in
  fst (fst (step 0 1000000 lookup_missed world_with_user_7))
  = Ret (None,
         Some ("failed to create a user: "
               +:+ Postgres.error_message Postgres.unique_violation)).
Proof.
  intros lookup_missed.
  pose proof (upsert_surfaces_conflict 0 "+1234567890" 0 1000000 empty_world
                world_with_user_7) as H.
  change (Postgres.select_by_phone_number "+1234567890" (models empty_world))
    with (@None Postgres.User) in H.
  destruct H as [_ [_ H]].
  change (Postgres.select_by_phone_number "+1234567890" (models world_with_user_7))
    with (Some (Postgres.mkUser 7 0 "+1234567890")) in H.
  exact (proj1 H).
Defined.

(** The scenario of the specification: three requests within ten
    minutes are answered 200, the fourth 429; the code of the third
    issuance then verifies with 200 and a made-up code gets 401. *)
Example requests_then_verification :
  let phone := "+1234567890" in
  let second := GoTime.Second in
  let request entropy t w :=
    run (instants t []) (handleRequestOTP entropy blank (inr phone)) w in
  let verify code t w :=
    run (instants t [])
        (handleVerifyOTP demo_HMAC demo_compact "secret" blank
           (inr (mkVerifyOTPReq phone code))) w in
  let r1 := request (Byte.x01, Byte.x00) (0 * second) empty_world in
  let r2 := request (Byte.x02, Byte.x00) (1 * second) (snd r1) in
  let r3 := request (Byte.x2a, Byte.x00) (2 * second) (snd r2) in
  let r4 := request (Byte.x03, Byte.x00) (3 * second) (snd r3) in
  map (fun r => served_status (fst r)) [r1; r2; r3; r4]
  = [Some StatusOK; Some StatusOK; Some StatusOK; Some StatusTooManyRequests]
  /\ served_status (fst (verify "0042" (4 * second) (snd r4))) = Some StatusOK
  /\ served_status (fst (verify "9999" (4 * second) (snd r4))) = Some StatusUnauthorized.
Proof. vm_compute. repeat split. Qed.

(** * Further properties *)

(** ** The rate limiter: errors and other keys *)

Lemma rate_limit_key_inj (p q : string) : rate_limit_key p = rate_limit_key q -> p = q.
Proof. unfold rate_limit_key. cbv [String.append]. intros [= ->]. reflexivity. Qed.

Lemma String_length_append (s1 s2 : string) :
  String.length (s1 +:+ s2) = (String.length s1 + String.length s2)%nat.
Proof.
  induction s1 as [|c s1 IH]; [reflexivity|].
  change (String c s1 +:+ s2) with (String c (s1 +:+ s2)).
  cbn [String.length]. rewrite IH. reflexivity.
Qed.

(** A phone number is never its own rate-limit key. *)
Lemma rate_limit_key_not_phone (p : string) : rate_limit_key p <> p.
Proof.
  unfold rate_limit_key. intros Heq.
  apply (f_equal String.length) in Heq. rewrite String_length_append in Heq.
  cbn [String.length] in Heq. lia.
Qed.

Lemma world_eta (w : world) : World (cache w) (models w) = w.
Proof. destruct w. reflexivity. Qed.

(** X1.  [allowOTPRequest] returns an error exactly when the rate-limit
    key holds a live hash or a live counter at the int64 limit; with an
    error it never admits the request and it leaves both stores as they
    were. *)
Theorem allowOTPRequest_error_denies (phone : string) (clk : nat -> Z) (w : world) :
  (snd (fst (run clk (allowOTPRequest phone) w)) <> None
   <-> match Redis.lookup_live (Redis.mstime (clk O)) (rate_limit_key phone) (cache w) with
       | Some (Redis.Entry (Redis.VHash _) _) => True
       | Some (Redis.Entry (Redis.VInt n) _) => int64_max <= n
       | None => False
       end)
  /\ (snd (fst (run clk (allowOTPRequest phone) w)) <> None ->
      fst (fst (run clk (allowOTPRequest phone) w)) = false
      /\ snd (run clk (allowOTPRequest phone) w) = w).
Proof.
  rewrite allowOTPRequest_script.
  unfold Redis.otpRateLimitScript, Redis.EXISTS, Redis.INCR.
  destruct (Redis.lookup_live _ _ _) as [[[n|h] ex]|]; cbn [Z.eqb].
  - destruct (Z.ltb_spec n int64_max) as [Hlt|Hge]; cbn [fst snd negb length Nat.eqb nth].
    + split; [split; [intros H; contradiction H; reflexivity | lia]|].
      intros H; contradiction H; reflexivity.
    + split; [split; [intros _; assumption | discriminate]|].
      intros _. split; [reflexivity | apply world_eta].
  - cbn [fst snd]. split; [split; [trivial | discriminate]|].
    intros _. split; [reflexivity | apply world_eta].
  - cbn [fst snd negb length Nat.eqb nth].
    split; [split; [intros H; contradiction H; reflexivity | contradiction]|].
    intros H; contradiction H; reflexivity.
Qed.

Lemma allowOTPRequest_frame (phone : string) (clk : nat -> Z) (w : world) (k : string) :
  k <> rate_limit_key phone ->
  cache (snd (run clk (allowOTPRequest phone) w)) !! k = cache w !! k.
Proof.
  intros Hk. rewrite allowOTPRequest_script.
  unfold Redis.otpRateLimitScript, Redis.EXISTS, Redis.INCR, Redis.SET_EX.
  destruct (Redis.lookup_live _ _ _) as [[[n|h] ex]|]; cbn [Z.eqb].
  - destruct (n <? int64_max); cbn [snd cache]; [|reflexivity].
    apply lookup_insert_ne. congruence.
  - reflexivity.
  - cbn [snd cache]. apply lookup_insert_ne. congruence.
Qed.

Lemma allowOTPRequest_models (phone : string) (clk : nat -> Z) (w : world) :
  models (snd (run clk (allowOTPRequest phone) w)) = models w.
Proof.
  rewrite allowOTPRequest_script.
  destruct (Redis.otpRateLimitScript _ _ _ _). reflexivity.
Qed.

Lemma allowOTPRequest_challenge (phone : string) (clk : nat -> Z) (w : world) (now : Z) :
  active_challenge now phone (snd (run clk (allowOTPRequest phone) w))
  = active_challenge now phone w.
Proof.
  unfold active_challenge, Redis.lookup_live.
  rewrite allowOTPRequest_frame; [reflexivity|].
  intros Heq. exact (rate_limit_key_not_phone phone (eq_sym Heq)).
Qed.

(** X2.  A rate-limit call for a phone number writes its own counter
    only: every other key keeps its entry, in particular the counter
    of any other phone number and the pending challenge of the phone
    number itself, and the table of users is not touched. *)
Theorem allowOTPRequest_other_keys (phone : string) (clk : nat -> Z) (w : world) :
  (forall k, k <> rate_limit_key phone ->
     cache (snd (run clk (allowOTPRequest phone) w)) !! k = cache w !! k)
  /\ (forall other, other <> phone ->
        cache (snd (run clk (allowOTPRequest phone) w)) !! rate_limit_key other
        = cache w !! rate_limit_key other)
  /\ (forall now,
        active_challenge now phone (snd (run clk (allowOTPRequest phone) w))
        = active_challenge now phone w)
  /\ models (snd (run clk (allowOTPRequest phone) w)) = models w.
Proof.
  split; [apply allowOTPRequest_frame|]. split; [|split].
  - intros other Hother. apply allowOTPRequest_frame. intros Heq.
    apply rate_limit_key_inj in Heq. contradiction.
  - apply allowOTPRequest_challenge.
  - apply allowOTPRequest_models.
Qed.

(** ** What every reachable state satisfies *)

Lemma insert_user_ids (now : Z) (phone : string) (t : Postgres.users_table) :
  ids_from_sequence t -> ids_from_sequence (snd (Postgres.insert_user now phone t)).
Proof.
  unfold ids_from_sequence, Postgres.insert_user. intros [Hnd Hle].
  destruct (Postgres.select_by_phone_number phone t);
    cbn [snd Postgres.rows Postgres.id_seq].
  - split; [exact Hnd|]. eapply Forall_impl; [exact Hle|]. cbn. intros u0 Hu0. lia.
  - split.
    + rewrite map_app. cbn [map Postgres.ID]. apply NoDup_app.
      split; [exact Hnd|]. split; [|apply NoDup_singleton].
      intros x Hx Hin. apply list_elem_of_singleton in Hin. subst x.
      apply list_elem_of_In, in_map_iff in Hx as (u0 & Hid & Hu0).
      rewrite Forall_forall in Hle. apply list_elem_of_In, Hle in Hu0.
      cbn [Postgres.ID] in Hid. lia.
    + apply Forall_app. split.
      * eapply Forall_impl; [exact Hle|]. cbn. intros u0 Hu0. lia.
      * apply Forall_singleton. cbn [Postgres.ID]. lia.
Qed.

Lemma exec_world_consistent {R : Type} (now : Z) (c : command R) (w : world) :
  world_consistent w -> world_consistent (snd (exec now c w)).
Proof.
  intros [Hpos Htable]. split; [apply exec_counters_positive; exact Hpos|].
  destruct c; cbn [exec]; try exact Htable.
  - destruct (Redis.otpRateLimitScript _ _ _ _). exact Htable.
  - destruct (Redis.HSET _ _ _ _ _). exact Htable.
  - destruct (Redis.EXPIRE _ _ _ _). exact Htable.
  - destruct Htable as [Hphones Hids].
    pose proof (insert_user_unique now phone (models w) Hphones) as H1.
    pose proof (insert_user_ids now phone (models w) Hids) as H2.
    destruct (Postgres.insert_user now phone (models w)). split; assumption.
Qed.

Lemma run_world_consistent {A : Type} (p : prog A) : forall (clk : nat -> Z) (w : world),
  world_consistent w -> world_consistent (snd (run clk p w)).
Proof.
  induction p as [a|R c k IH]; intros clk w Hw; cbn [run]; [exact Hw|].
  pose proof (exec_world_consistent (clk O) c w Hw) as Hw'.
  destruct (exec (clk O) c w) as [r w']. apply IH. exact Hw'.
Qed.

(** X3.  Whatever requests run concurrently and however their commands
    interleave, a consistent world stays consistent: every rate-limit
    counter is at least 1, no two users share a phone number, and ids
    are distinct values the sequence has handed out. *)
Theorem run_pool_world_consistent {A : Type} (sched : list (nat * Z)) :
  forall (pool : list (prog A)) (w : world),
    world_consistent w -> world_consistent (snd (fst (run_pool sched pool w))).
Proof.
  induction sched as [|[tid t] sched IH]; intros pool w Hw; cbn [run_pool];
    [exact Hw|].
  destruct (pool !! tid) as [p|]; [|apply IH; exact Hw].
  destruct p as [a|R c k]; cbn [step].
  - specialize (IH (<[tid := Ret a]> pool) w Hw).
    destruct (run_pool sched _ w) as [[pool' w'] evs]. exact IH.
  - pose proof (exec_world_consistent t c w Hw) as Hw'.
    destruct (exec t c w) as [r w1]. cbn [snd] in Hw'.
    specialize (IH (<[tid := k r]> pool) w1 Hw').
    destruct (run_pool sched _ w1) as [[pool' w'] evs]. exact IH.
Qed.

(** ** Requesting a code *)

Lemma allowOTPRequest_served (phone : string) (clk : nat -> Z) (w : world) :
  commands_served clk (allowOTPRequest phone) w = 1%nat.
Proof.
  unfold allowOTPRequest. cbn [commands_served].
  destruct (exec _ _ _) as [[e|arr] w1]; [reflexivity|].
  destruct (negb _); reflexivity.
Qed.

(** The handler is the rate-limit call followed, if admitted, by the store. *)
Lemma handleRequestOTP_run (entropy : Byte.byte * Byte.byte) (clk : nat -> Z)
    (rw : ResponseWriter) (phone : string) (w : world) :
  phone <> EmptyString ->
  run clk (handleRequestOTP entropy rw (inr phone)) w =
    let limited := run clk (allowOTPRequest phone) w in
    match snd (fst limited) with
    | Some _ =>
        (Done (errorResponse rw StatusInternalServerError "rate limit error"), snd limited)
    | None =>
        if negb (fst (fst limited))
        then (Done (errorResponse rw StatusTooManyRequests
                      "Too many OTP requests. Please try again later."), snd limited)
        else
          let stored := run (fun i => clk (S i))
                          (storeOTPInRedis phone (generateOTP entropy)) (snd limited) in
          match fst stored with
          | Some _ =>
              (Done (errorResponse rw StatusInternalServerError "Failed to store OTP"),
               snd stored)
          | None =>
              (Done (writeJSON rw StatusOK
                       [("success", JBool true);
                        ("message", JString "OTP sent successfully")]),
               snd stored)
          end
    end.
Proof.
  intros Hphone. unfold handleRequestOTP.
  destruct (String.eqb_spec phone EmptyString) as [|_]; [contradiction|].
  rewrite run_bind, allowOTPRequest_served.
  destruct (run clk (allowOTPRequest phone) w) as [[allowed err] w1]. cbn [fst snd].
  destruct err as [e|]; [reflexivity|].
  destruct allowed; cbn [negb]; [|reflexivity].
  rewrite run_bind.
  change (fun i : nat => clk (1 + i)%nat) with (fun i : nat => clk (S i)).
  destruct (run _ (storeOTPInRedis _ _) w1) as [err w2]. cbn [fst snd].
  destruct err; reflexivity.
Qed.

Lemma generateOTP_nonempty (entropy : Byte.byte * Byte.byte) :
  generateOTP entropy <> EmptyString.
Proof.
  destruct entropy as [b0 b1]. unfold generateOTP. cbn [fst].
  destruct b0; vm_compute; discriminate.
Qed.

Lemma errorResponse_status (rw : ResponseWriter) (status : Z) (message : string) :
  Status rw = None -> Status (errorResponse rw status message) = Some status.
Proof. unfold errorResponse, writeJSON. cbn [Status]. intros ->. reflexivity. Qed.

Lemma writeJSON_status (rw : ResponseWriter) (status : Z) (body : envelope) :
  Status rw = None -> Status (writeJSON rw status body) = Some status.
Proof. unfold writeJSON. cbn [Status]. intros ->. reflexivity. Qed.

(** A request answered with 200 was admitted by the rate limiter and
    stored without an error. *)
Lemma handleRequestOTP_ok (entropy : Byte.byte * Byte.byte) (clk : nat -> Z)
    (rw : ResponseWriter) (phone : string) (w : world) :
  phone <> EmptyString ->
  Status rw = None ->
  served_status (fst (run clk (handleRequestOTP entropy rw (inr phone)) w)) = Some StatusOK ->
  run (fun i => clk (S i)) (storeOTPInRedis phone (generateOTP entropy))
      (snd (run clk (allowOTPRequest phone) w))
  = (None, snd (run clk (handleRequestOTP entropy rw (inr phone)) w)).
Proof.
  intros Hphone Hrw. rewrite handleRequestOTP_run by exact Hphone. cbv zeta.
  destruct (snd (fst (run clk (allowOTPRequest phone) w))).
  { cbn [fst served_status]. rewrite errorResponse_status by exact Hrw. discriminate. }
  destruct (fst (fst (run clk (allowOTPRequest phone) w))); cbn [negb].
  2:{ cbn [fst served_status]. rewrite errorResponse_status by exact Hrw. discriminate. }
  destruct (run _ (storeOTPInRedis _ _) _) as [[e|] w2]; cbn [fst snd served_status].
  - rewrite errorResponse_status by exact Hrw. discriminate.
  - reflexivity.
Qed.

(** X4.  Once the counter of the window has reached the maximum, a
    request is answered 429; it is still counted, the window keeps its
    expiry, and the pending challenge of the phone number is left as it
    was: no new code is stored. *)
Theorem handleRequestOTP_limited (entropy : Byte.byte * Byte.byte) (clk : nat -> Z)
    (rw : ResponseWriter) (phone : string) (w : world) (n : Z) (ex : option Z) :
  phone <> EmptyString ->
  Redis.lookup_live (Redis.mstime (clk O)) (rate_limit_key phone) (cache w)
    = Some (Redis.Entry (Redis.VInt n) ex) ->
  otpRateLimitMax <= n < int64_max ->
  run clk (handleRequestOTP entropy rw (inr phone)) w =
    (Done (errorResponse rw StatusTooManyRequests
             "Too many OTP requests. Please try again later."),
     World (<[rate_limit_key phone := Redis.Entry (Redis.VInt (n + 1)) ex]> (cache w))
           (models w))
  /\ forall now,
       active_challenge now phone (snd (run clk (handleRequestOTP entropy rw (inr phone)) w))
       = active_challenge now phone w.
Proof.
  intros Hphone Hlive [Hmax Hn].
  assert (run clk (handleRequestOTP entropy rw (inr phone)) w =
    (Done (errorResponse rw StatusTooManyRequests
             "Too many OTP requests. Please try again later."),
     snd (run clk (allowOTPRequest phone) w))) as Hrun.
  { rewrite handleRequestOTP_run by exact Hphone. cbv zeta.
    rewrite (allowOTPRequest_live phone clk w n ex Hlive Hn). cbn [fst snd].
    replace (n + 1 <=? otpRateLimitMax) with false by (symmetry; apply Z.leb_gt; lia).
    reflexivity. }
  split.
  - rewrite Hrun, (allowOTPRequest_live phone clk w n ex Hlive Hn). reflexivity.
  - intros now. rewrite Hrun. cbn [snd]. apply allowOTPRequest_challenge.
Qed.

Section RequestThenVerify.

Variable HMAC : jwt.SigningMethod -> string -> jwt.RegisteredClaims -> string.
Variable compact : jwt.Token -> string.
Variable jwtSecret : string.

(** X5.  A request answered 200 followed by a verification of the code
    it sent: if the record the store updated did not run out between
    its two commands, the verification answers 200 as long as the
    server clock has not passed two minutes after the [EXPIRE], and 401
    from then on. *)
Theorem requested_code_verifies (entropy : Byte.byte * Byte.byte) (clk clk' : nat -> Z)
    (rw rw' : ResponseWriter) (phone : string) (w : world) :
  phone <> EmptyString ->
  Status rw = None ->
  Status rw' = None ->
  served_status (fst (run clk (handleRequestOTP entropy rw (inr phone)) w)) = Some StatusOK ->
  (forall v e, cache w !! phone = Some (Redis.Entry v (Some e)) ->
     ~ Redis.mstime (clk 1%nat) <= e < Redis.mstime (clk 2%nat)) ->
  served_status
    (fst (run clk'
            (handleVerifyOTP HMAC compact jwtSecret rw'
               (inr (mkVerifyOTPReq phone (generateOTP entropy))))
            (snd (run clk (handleRequestOTP entropy rw (inr phone)) w))))
  = Some (if decide (Redis.mstime (clk' O) <= otp_deadline (clk 2%nat))
          then StatusOK else StatusUnauthorized).
Proof.
  intros Hphone Hrw Hrw' Hok Hgap.
  pose proof (handleRequestOTP_ok entropy clk rw phone w Hphone Hrw Hok) as Hstore.
  destruct (storeOTPInRedis_slot _ _ _ _ _ Hstore) as (h & ex & Hslot & Hotp & Hex).
  destruct Hex as [-> | (e & v & _ & Hold & Hin)].
  2:{ rewrite allowOTPRequest_frame in Hold
        by (intros Heq; exact (rate_limit_key_not_phone phone (eq_sym Heq))).
      exfalso. exact (Hgap v e Hold Hin). }
  destruct (handleVerifyOTP_run HMAC compact jwtSecret clk' rw'
              (mkVerifyOTPReq phone (generateOTP entropy))
              (snd (run clk (handleRequestOTP entropy rw (inr phone)) w)))
    as [Hstatus _]; cbn [PhoneNumber OTP];
    [exact Hphone | apply generateOTP_nonempty | exact Hrw' |].
  rewrite Hstatus. cbn [PhoneNumber OTP]. f_equal.
  unfold active_challenge, Redis.lookup_live. rewrite Hslot.
  unfold Redis.expired. cbn [Redis.expire_at].
  destruct (Z.ltb_spec (otp_deadline (clk 2%nat)) (Redis.mstime (clk' O))) as [Hlt|Hge].
  - rewrite decide_False by discriminate. rewrite decide_False by lia. reflexivity.
  - rewrite decide_True by exact Hotp. rewrite decide_True by lia. reflexivity.
Qed.

(** X6.  If the old record of the phone number runs out between the
    [HSET] and the [EXPIRE] of the store, the request is still answered
    200 (the [EXPIRE] of a key that is gone is no error), but the code
    it sent is lost with the old record: a verification served after
    the [EXPIRE] answers 401. *)
Theorem requested_code_lost_in_gap (entropy : Byte.byte * Byte.byte) (clk clk' : nat -> Z)
    (rw rw' : ResponseWriter) (phone : string) (w : world)
    (h : gmap string string) (e : Z) :
  phone <> EmptyString ->
  Status rw = None ->
  Status rw' = None ->
  fst (run clk (allowOTPRequest phone) w) = (true, None) ->
  cache w !! phone = Some (Redis.Entry (Redis.VHash h) (Some e)) ->
  Redis.mstime (clk 1%nat) <= e < Redis.mstime (clk 2%nat) ->
  Redis.mstime (clk 2%nat) <= Redis.mstime (clk' O) ->
  served_status (fst (run clk (handleRequestOTP entropy rw (inr phone)) w)) = Some StatusOK
  /\ served_status
       (fst (run clk'
               (handleVerifyOTP HMAC compact jwtSecret rw'
                  (inr (mkVerifyOTPReq phone (generateOTP entropy))))
               (snd (run clk (handleRequestOTP entropy rw (inr phone)) w))))
     = Some StatusUnauthorized.
Proof.
  intros Hphone Hrw Hrw' Hallow Hold [Hlo Hhi] Hlater.
  assert (cache (snd (run clk (allowOTPRequest phone) w)) !! phone
          = Some (Redis.Entry (Redis.VHash h) (Some e))) as Hold1.
  { rewrite allowOTPRequest_frame; [exact Hold|].
    intros Heq. exact (rate_limit_key_not_phone phone (eq_sym Heq)). }
  assert (run (fun i => clk (S i)) (storeOTPInRedis phone (generateOTP entropy))
            (snd (run clk (allowOTPRequest phone) w))
          = (None,
             World (<[phone := Redis.Entry (Redis.VHash (<["otp" := generateOTP entropy]> h))
                                 (Some e)]>
                      (cache (snd (run clk (allowOTPRequest phone) w))))
                   (models (snd (run clk (allowOTPRequest phone) w))))) as Hstore.
  { rewrite storeOTPInRedis_run. unfold Redis.HSET, Redis.lookup_live at 1.
    rewrite Hold1. unfold Redis.expired at 1. cbn [Redis.expire_at].
    replace (e <? Redis.mstime (clk 1%nat)) with false by (symmetry; apply Z.ltb_ge; lia).
    unfold Redis.EXPIRE, Redis.lookup_live. rewrite lookup_insert_eq.
    unfold Redis.expired. cbn [Redis.expire_at].
    replace (e <? Redis.mstime (clk 2%nat)) with true by (symmetry; apply Z.ltb_lt; lia).
    reflexivity. }
  assert (run clk (handleRequestOTP entropy rw (inr phone)) w =
          (Done (writeJSON rw StatusOK
                   [("success", JBool true); ("message", JString "OTP sent successfully")]),
           snd (run (fun i => clk (S i)) (storeOTPInRedis phone (generateOTP entropy))
                  (snd (run clk (allowOTPRequest phone) w))))) as Hrun.
  { rewrite handleRequestOTP_run by exact Hphone. cbv zeta.
    rewrite Hallow. cbn [fst snd negb]. rewrite Hstore. reflexivity. }
  split.
  - rewrite Hrun. cbn [fst served_status]. apply writeJSON_status. exact Hrw.
  - destruct (handleVerifyOTP_run HMAC compact jwtSecret clk' rw'
                (mkVerifyOTPReq phone (generateOTP entropy))
                (snd (run clk (handleRequestOTP entropy rw (inr phone)) w)))
      as [Hstatus _]; cbn [PhoneNumber OTP];
      [exact Hphone | apply generateOTP_nonempty | exact Hrw' |].
    rewrite Hstatus. cbn [PhoneNumber OTP]. rewrite decide_False; [reflexivity|].
    rewrite Hrun, Hstore. cbn [snd].
    unfold active_challenge, Redis.lookup_live. cbn [cache]. rewrite lookup_insert_eq.
    unfold Redis.expired. cbn [Redis.expire_at].
    replace (e <? Redis.mstime (clk' O)) with true by (symmetry; apply Z.ltb_lt; lia).
    discriminate.
Qed.

End RequestThenVerify.

(** X7.  The challenge of a phone number and the rate-limit counter of
    another share one keyspace.  While the phone number spelled as the
    rate-limit key of [phone] has a pending challenge, every request
    for [phone] is answered 500 and changes nothing. *)
Theorem handleRequestOTP_key_collision (entropy : Byte.byte * Byte.byte) (clk : nat -> Z)
    (rw : ResponseWriter) (phone code : string) (w : world) :
  phone <> EmptyString ->
  active_challenge (clk O) (rate_limit_key phone) w = Some code ->
  run clk (handleRequestOTP entropy rw (inr phone)) w =
    (Done (errorResponse rw StatusInternalServerError "rate limit error"), w).
Proof.
  intros Hphone Hact. rewrite handleRequestOTP_run by exact Hphone. cbv zeta.
  rewrite allowOTPRequest_script.
  unfold active_challenge in Hact.
  unfold Redis.otpRateLimitScript, Redis.EXISTS, Redis.INCR.
  destruct (Redis.lookup_live _ _ _) as [[[n|h] ex]|]; try discriminate.
  cbn [Z.eqb fst snd]. rewrite world_eta. reflexivity.
Qed.

(** X8.  [storeOTPInRedis] on a key that holds a live counter returns
    the WRONGTYPE error of the [HSET] and changes nothing; it does not
    go on to the [EXPIRE]. *)
Theorem storeOTPInRedis_on_counter (clk : nat -> Z) (phone otp : string) (w : world)
    (n : Z) (ex : option Z) :
  Redis.lookup_live (Redis.mstime (clk O)) phone (cache w)
    = Some (Redis.Entry (Redis.VInt n) ex) ->
  run clk (storeOTPInRedis phone otp) w =
    (Some ("failed to store user data in Redis: "
           +:+ Redis.error_message Redis.WRONGTYPE), w)
  /\ commands_served clk (storeOTPInRedis phone otp) w = 1%nat.
Proof.
  intros Hlive. split.
  - rewrite storeOTPInRedis_run. unfold Redis.HSET. rewrite Hlive.
    rewrite world_eta. reflexivity.
  - unfold storeOTPInRedis. cbn [commands_served exec]. unfold Redis.HSET.
    rewrite Hlive. reflexivity.
Qed.

(** X9.  A store for one phone number writes the key of that phone
    number only: the challenges of other phone numbers, every
    rate-limit counter other than one spelled like the phone number,
    and the table of users stay as they were. *)
Theorem storeOTPInRedis_other_keys (clk : nat -> Z) (phone otp : string) (w : world) :
  (forall k, k <> phone ->
     cache (snd (run clk (storeOTPInRedis phone otp) w)) !! k = cache w !! k)
  /\ (forall now other, other <> phone ->
        active_challenge now other (snd (run clk (storeOTPInRedis phone otp) w))
        = active_challenge now other w)
  /\ cache (snd (run clk (storeOTPInRedis phone otp) w)) !! rate_limit_key phone
     = cache w !! rate_limit_key phone
  /\ models (snd (run clk (storeOTPInRedis phone otp) w)) = models w.
Proof.
  assert (forall k, k <> phone ->
     cache (snd (run clk (storeOTPInRedis phone otp) w)) !! k = cache w !! k) as Hframe.
  { intros k Hk. rewrite storeOTPInRedis_run. unfold Redis.HSET, Redis.EXPIRE.
    destruct (Redis.lookup_live _ phone (cache w)) as [[[n|h] ex]|]; cbn [snd cache].
    - reflexivity.
    - destruct (Redis.lookup_live _ _ _); cbn [snd];
        rewrite ?lookup_insert_ne by congruence; reflexivity.
    - destruct (Redis.lookup_live _ _ _); cbn [snd];
        rewrite ?lookup_insert_ne by congruence; reflexivity. }
  split; [exact Hframe|]. split; [|split].
  - intros now other Hother. unfold active_challenge, Redis.lookup_live.
    rewrite Hframe by exact Hother. reflexivity.
  - apply Hframe. apply rate_limit_key_not_phone.
  - rewrite storeOTPInRedis_run.
    destruct (Redis.HSET _ _ _ _ _) as [[err|r] db]; reflexivity.
Qed.

(** ** Registration and lookup of users *)

Lemma find_app {A : Type} (f : A -> bool) (l l' : list A) :
  List.find f (l ++ l')%list =
    match List.find f l with
    | Some x => Some x
    | None => List.find f l'
    end.
Proof.
  induction l as [|a l IH]; [reflexivity|].
  cbn [List.app List.find]. destruct (f a); [reflexivity | exact IH].
Qed.

(** With distinct ids, the row found by the id of a row is that row. *)
Lemma select_by_id_row (t : Postgres.users_table) (u : Postgres.User) :
  NoDup (map Postgres.ID (Postgres.rows t)) ->
  In u (Postgres.rows t) ->
  Postgres.select_by_id (Postgres.ID u) t = Some u.
Proof.
  unfold Postgres.select_by_id. induction (Postgres.rows t) as [|a l IH];
    intros Hnd Hin; [destruct Hin|].
  cbn [map] in Hnd. apply NoDup_cons in Hnd as [Ha Hnd]. cbn [List.find].
  unfold Postgres.has_id at 1. case_bool_decide as Hid.
  - destruct Hin as [->|Hin]; [reflexivity|].
    exfalso. apply Ha. rewrite Hid. apply list_elem_of_In, in_map. exact Hin.
  - destruct Hin as [->|Hin]; [contradiction Hid; reflexivity|].
    apply IH; assumption.
Qed.

Lemma select_by_phone_number_row (phone : string) (t : Postgres.users_table)
    (u : Postgres.User) :
  Postgres.select_by_phone_number phone t = Some u ->
  In u (Postgres.rows t) /\ Postgres.PhoneNumber u = phone.
Proof.
  unfold Postgres.select_by_phone_number. intros Hfind.
  apply find_some in Hfind as [Hin Hphone]. split; [exact Hin|].
  unfold Postgres.has_phone in Hphone. apply bool_decide_eq_true in Hphone. exact Hphone.
Qed.

(** What the upsert leaves: its user is a row of the table, found under
    the phone number. *)
Lemma createUserIfNotExists_row (clk : nat -> Z) (phone : string) (w : world) :
  exists u,
    fst (run clk (createUserIfNotExists phone) w) = (Some u, None)
    /\ Postgres.PhoneNumber u = phone
    /\ In u (Postgres.rows (models (snd (run clk (createUserIfNotExists phone) w))))
    /\ Postgres.select_by_phone_number phone
         (models (snd (run clk (createUserIfNotExists phone) w))) = Some u.
Proof.
  rewrite createUserIfNotExists_run.
  destruct (Postgres.select_by_phone_number phone (models w)) as [u|] eqn:Hsel.
  - exists u. cbn [fst snd].
    destruct (select_by_phone_number_row _ _ _ Hsel) as [Hin Hphone].
    repeat split; assumption.
  - cbv zeta. eexists. cbn [fst snd models Postgres.rows].
    split; [reflexivity|]. split; [reflexivity|]. split.
    + apply in_or_app. right. left. reflexivity.
    + unfold Postgres.select_by_phone_number in *. cbn [Postgres.rows].
      rewrite find_app, Hsel. cbn [List.find]. unfold Postgres.has_phone.
      cbn [Postgres.PhoneNumber]. rewrite bool_decide_true by reflexivity. reflexivity.
Qed.

(** X10.  Served without interference, the upsert registers a phone
    number once: it returns a user with that phone number, and running
    it again, at any time, returns the same user (same id, same
    creation time) and writes nothing. *)
Theorem createUserIfNotExists_registers_once (clk clk' : nat -> Z) (phone : string)
    (w : world) :
  exists u,
    fst (run clk (createUserIfNotExists phone) w) = (Some u, None)
    /\ Postgres.PhoneNumber u = phone
    /\ run clk' (createUserIfNotExists phone) (snd (run clk (createUserIfNotExists phone) w))
       = ((Some u, None), snd (run clk (createUserIfNotExists phone) w)).
Proof.
  destruct (createUserIfNotExists_row clk phone w) as (u & Hu & Hphone & _ & Hsel).
  exists u. split; [exact Hu|]. split; [exact Hphone|].
  rewrite (createUserIfNotExists_run clk'), Hsel. reflexivity.
Qed.

Lemma createUserIfNotExists_consistent (clk : nat -> Z) (phone : string) (w : world) :
  table_consistent (models w) ->
  table_consistent (models (snd (run clk (createUserIfNotExists phone) w))).
Proof.
  intros [Hphones Hids]. rewrite createUserIfNotExists_run.
  destruct (Postgres.select_by_phone_number phone (models w)) eqn:Hsel;
    [split; assumption|].
  pose proof (insert_user_unique (clk 1%nat) phone (models w) Hphones) as H1.
  pose proof (insert_user_ids (clk 1%nat) phone (models w) Hids) as H2.
  unfold Postgres.insert_user in H1, H2. rewrite Hsel in H1, H2.
  cbn [snd] in H1, H2. split; assumption.
Qed.

Lemma GetByID_run (clk : nat -> Z) (id : Z) (w : world) :
  run clk (data.GetByID id) w =
    (match Postgres.select_by_id id (models w) with
     | Some u => (Some u, None)
     | None => (None, Some data.ErrRecordNotFound)
     end, w).
Proof.
  unfold data.GetByID. cbn [run exec].
  destruct (Postgres.select_by_id id (models w)); reflexivity.
Qed.

(** X11.  Insert and lookup agree: in a table that satisfies its
    constraints, the user the upsert returns is the one [GetByID] finds
    under its id and [GetByPhoneNumber] under its phone number, and
    neither lookup writes. *)
Theorem registered_user_is_found (clk clk1 clk2 : nat -> Z) (phone : string) (w : world)
    (u : Postgres.User) :
  table_consistent (models w) ->
  fst (run clk (createUserIfNotExists phone) w) = (Some u, None) ->
  run clk1 (data.GetByID (Postgres.ID u)) (snd (run clk (createUserIfNotExists phone) w))
    = ((Some u, None), snd (run clk (createUserIfNotExists phone) w))
  /\ run clk2 (data.GetByPhoneNumber phone) (snd (run clk (createUserIfNotExists phone) w))
    = ((Some u, None), snd (run clk (createUserIfNotExists phone) w)).
Proof.
  intros Hw Hu.
  destruct (createUserIfNotExists_row clk phone w) as (u' & Hu' & _ & Hin & Hsel).
  assert (u' = u) as -> by congruence.
  destruct (createUserIfNotExists_consistent clk phone w Hw) as [_ [Hnd _]].
  split.
  - rewrite GetByID_run, (select_by_id_row _ u Hnd Hin). reflexivity.
  - unfold data.GetByPhoneNumber. cbn [run exec]. rewrite Hsel. reflexivity.
Qed.

Lemma getSingleUser_run (clk : nat -> Z) (idStr : string) (w : world) :
  run clk (getSingleUser idStr) w =
    (match ParseInt idStr with
     | None => ErrorReply StatusBadRequest "invalid user id"
     | Some userID =>
         match Postgres.select_by_id userID (models w) with
         | Some u => JSONReply StatusOK (data.Ptr u)
         | None => ErrorReply StatusNotFound "user not found"
         end
     end, w).
Proof.
  unfold getSingleUser. destruct (ParseInt idStr) as [userID|]; [|reflexivity].
  rewrite run_bind, GetByID_run. cbn [fst snd].
  destruct (Postgres.select_by_id userID (models w)); reflexivity.
Qed.

(** X12.  The id of a registered user, written in decimal as the path
    parameter, retrieves that user: [getSingleUser] answers 200 with
    the very row the upsert returned. *)
Theorem getSingleUser_registered (clk clk' : nat -> Z) (phone : string) (w : world)
    (u : Postgres.User) :
  table_consistent (models w) ->
  int64_min <= Postgres.ID u <= int64_max ->
  fst (run clk (createUserIfNotExists phone) w) = (Some u, None) ->
  run clk' (getSingleUser (FormatInt (Postgres.ID u)))
      (snd (run clk (createUserIfNotExists phone) w))
  = (JSONReply StatusOK (data.Ptr u), snd (run clk (createUserIfNotExists phone) w)).
Proof.
  intros Hw Hrange Hu.
  destruct (createUserIfNotExists_row clk phone w) as (u' & Hu' & _ & Hin & _).
  assert (u' = u) as -> by congruence.
  destruct (createUserIfNotExists_consistent clk phone w Hw) as [_ [Hnd _]].
  rewrite getSingleUser_run, ParseInt_FormatInt by exact Hrange.
  rewrite (select_by_id_row _ u Hnd Hin). reflexivity.
Qed.

(** X13.  [getSingleUser] only reads.  A path parameter that is not a
    decimal int64 is answered 400 before the table is asked; an id no
    row has is answered 404; a 200 carries a row of the table with the
    id asked for, never a nil user. *)
Theorem getSingleUser_replies (clk : nat -> Z) (idStr : string) (w : world) :
  snd (run clk (getSingleUser idStr) w) = w
  /\ (ParseInt idStr = None ->
      fst (run clk (getSingleUser idStr) w) = ErrorReply StatusBadRequest "invalid user id"
      /\ commands_served clk (getSingleUser idStr) w = O)
  /\ (forall id, ParseInt idStr = Some id ->
      ~ In id (map Postgres.ID (Postgres.rows (models w))) ->
      fst (run clk (getSingleUser idStr) w) = ErrorReply StatusNotFound "user not found")
  /\ (forall body, fst (run clk (getSingleUser idStr) w) = JSONReply StatusOK body ->
      exists u, body = data.Ptr u /\ In u (Postgres.rows (models w))
                /\ ParseInt idStr = Some (Postgres.ID u)).
Proof.
  rewrite getSingleUser_run. cbn [fst snd]. split; [reflexivity|]. split; [|split].
  - intros Hparse. rewrite Hparse. split; [reflexivity|].
    unfold getSingleUser. rewrite Hparse. reflexivity.
  - intros id Hparse Hnone. rewrite Hparse.
    destruct (Postgres.select_by_id id (models w)) as [u|] eqn:Hsel; [|reflexivity].
    exfalso. apply Hnone. unfold Postgres.select_by_id in Hsel.
    apply find_some in Hsel as [Hin Hid].
    unfold Postgres.has_id in Hid. apply bool_decide_eq_true in Hid.
    rewrite <- Hid. apply in_map. exact Hin.
  - intros body. destruct (ParseInt idStr) as [id|]; [|discriminate].
    destruct (Postgres.select_by_id id (models w)) as [u|] eqn:Hsel; [|discriminate].
    intros [= <-]. exists u. unfold Postgres.select_by_id in Hsel.
    apply find_some in Hsel as [Hin Hid].
    unfold Postgres.has_id in Hid. apply bool_decide_eq_true in Hid.
    split; [reflexivity|]. split; [exact Hin|]. rewrite Hid. reflexivity.
Qed.

(** ** The protected handler *)

Lemma Split_space_nonempty (s : string) : Split_space s <> [].
Proof.
  induction s as [|c s IH]; cbn [Split_space]; [discriminate|].
  destruct (Ascii.eqb c " "); [discriminate|].
  destruct (Split_space s); [contradiction IH; reflexivity | discriminate].
Qed.

Lemma Split_space_Bearer (tokenStr : string) :
  Split_space ("Bearer " +:+ tokenStr) = "Bearer" :: Split_space tokenStr.
Proof. reflexivity. Qed.

(** Without a space there is one piece only, the text itself. *)
Lemma Split_space_no_space (s : string) : cut_space s = None -> Split_space s = [s].
Proof.
  induction s as [|c s IH]; cbn [cut_space Split_space]; [reflexivity|].
  destruct (Ascii.eqb c " "); [discriminate|].
  destruct (cut_space s) as [[a b]|]; [discriminate|].
  intros _. rewrite IH by reflexivity. reflexivity.
Qed.

Lemma Split_space_cut (s : string) :
  (length (Split_space s) < 2)%nat <-> cut_space s = None.
Proof.
  split.
  - induction s as [|c s IH]; cbn [cut_space Split_space]; [reflexivity|].
    destruct (Ascii.eqb c " ").
    + pose proof (Split_space_nonempty s). destruct (Split_space s); [contradiction|].
      cbn [length]. lia.
    + pose proof (Split_space_nonempty s). destruct (Split_space s) as [|x xs] eqn:Hs;
        [contradiction|].
      cbn [length] in *. intros Hlen. rewrite IH by exact Hlen. reflexivity.
  - intros Hcut. rewrite (Split_space_no_space s Hcut). cbn [length]. lia.
Qed.

Section Guarded.

Variable HMAC : jwt.SigningMethod -> string -> jwt.RegisteredClaims -> string.
Variable parse_compact : string -> option jwt.Token.
Variable jwtSecret : string.

(** A guarded route either answers 401 by itself, or runs the handler
    with a user of the table in the context, on a request whose header
    is the word Bearer, a space and a token. *)
Lemma guarded_route_cases (clk : nat -> Z) (rw : ResponseWriter) (r : Request) (w : world) :
  let rw' := Header_Add "Vary" "Authorization" rw in
  (exists msg, forall next,
     run clk (authenticate HMAC parse_compact jwtSecret
                (requireAuthenticatedUser next) rw r) w
     = (Done (errorResponse rw' StatusUnauthorized msg), w))
  \/ (exists tokenStr u,
        Authorization r = "Bearer " +:+ tokenStr
        /\ forall next,
             run clk (authenticate HMAC parse_compact jwtSecret
                        (requireAuthenticatedUser next) rw r) w
             = run (fun i => clk (2 + i)%nat)
                   (next rw' (contextSetUser r (data.Ptr u))) w).
Proof.
  intros rw'. unfold authenticate. fold rw'.
  destruct (String.eqb_spec (Authorization r) EmptyString) as [Hauth|Hauth].
  { left. eexists. intros next. reflexivity. }
  unfold SplitN_space_2.
  destruct (cut_space (Authorization r)) as [[scheme tokenStr]|] eqn:Hcut;
    cbn [length Nat.eqb negb orb nth];
    [|left; eexists; intros next; reflexivity].
  destruct (String.eqb_spec scheme "Bearer") as [->|Hscheme]; cbn [negb];
    [|left; eexists; intros next; reflexivity].
  apply cut_space_app in Hcut.
  unfold ParseWithClaims, mbind, prog_mbind.
  destruct (parse_compact tokenStr) as [t|];
    [|left; eexists; intros next; reflexivity].
  destruct (jwt.is_SigningMethodHMAC (jwt.Method t)); cbn [negb];
    [|left; eexists; intros next; reflexivity].
  destruct (String.eqb (jwt.Signature t) (HMAC (jwt.Method t) jwtSecret (jwt.Claims t)));
    cbn [negb]; [|left; eexists; intros next; reflexivity].
  cbn [prog_bind run exec].
  destruct (jwt.Validate (clk O) (jwt.Claims t));
    cbn [prog_bind run]; [left; eexists; intros next; reflexivity|].
  destruct (String.eqb (jwt.Subject (jwt.Claims t)) EmptyString);
    [left; eexists; intros next; reflexivity|].
  destruct (ParseInt (jwt.Subject (jwt.Claims t))) as [userID|];
    [|left; eexists; intros next; reflexivity].
  unfold data.GetByID. cbn [prog_bind run exec].
  destruct (Postgres.select_by_id userID (models w)) as [u|];
    cbn [prog_bind run]; [|left; eexists; intros next; reflexivity].
  right. exists tokenStr, u. split; [exact Hcut|]. intros next. reflexivity.
Qed.

Variable parse_unverified : string -> option jwt.Token.
Variable time_json : Z -> string.

(** X14.  Behind [authenticate] and [requireAuthenticatedUser] the
    protected handler never panics, whatever the request: the index
    into the pieces of the header and the dereference of the user are
    safe there.  Every request is answered, with 200 or 401, and no
    store is written. *)
Theorem protected_route_never_panics (clk : nat -> Z) (rw : ResponseWriter) (r : Request)
    (w : world) :
  Status rw = None ->
  exists rw',
    run clk (authenticate HMAC parse_compact jwtSecret
               (requireAuthenticatedUser (protectedHandler parse_unverified time_json))
               rw r) w
    = (Done rw', w)
    /\ (Status rw' = Some StatusOK \/ Status rw' = Some StatusUnauthorized).
Proof.
  intros Hrw.
  assert (Status (Header_Add "Vary" "Authorization" rw) = None) as Hrw' by exact Hrw.
  destruct (guarded_route_cases clk rw r w) as [[msg Hroute]|(tokenStr & u & Hauth & Hroute)];
    rewrite Hroute.
  - eexists. split; [reflexivity|]. right. apply errorResponse_status. exact Hrw'.
  - unfold protectedHandler, contextGetUser, contextSetUser.
    cbn [userContext Authorization]. rewrite Hauth, Split_space_Bearer.
    pose proof (Split_space_nonempty tokenStr) as Hne.
    destruct (Split_space tokenStr) as [|tok rest]; [contradiction|].
    destruct (parse_unverified tok) as [t|].
    + destruct (jwt.ExpiresAt (jwt.Claims t)) as [exp|]; cbn [user_PhoneNumber run].
      * eexists. split; [reflexivity|]. left. apply writeJSON_status. exact Hrw'.
      * eexists. split; [reflexivity|]. right. apply errorResponse_status. exact Hrw'.
    + cbn [run]. eexists. split; [reflexivity|]. right.
      apply errorResponse_status. exact Hrw'.
Qed.

End Guarded.

Section ProtectedAlone.

Variable parse_unverified : string -> option jwt.Token.
Variable time_json : Z -> string.

(** X15.  On its own the protected handler panics exactly in three
    cases: the context carries no user; the [Authorization] header has
    no space (also when it is absent), so that the pieces have no index
    1; or the user is nil and the token has an expiry.  It reads no
    store. *)
Theorem protectedHandler_panics (clk : nat -> Z) (rw : ResponseWriter) (r : Request)
    (w : world) :
  ((exists msg, fst (run clk (protectedHandler parse_unverified time_json rw r) w) = Panic msg)
   <-> userContext r = None
       \/ (length (Split_space (Authorization r)) < 2)%nat
       \/ (userContext r = Some data.Nil
           /\ exists t exp,
                parse_unverified (nth 1 (Split_space (Authorization r)) EmptyString) = Some t
                /\ jwt.ExpiresAt (jwt.Claims t) = Some exp))
  /\ snd (run clk (protectedHandler parse_unverified time_json rw r) w) = w
  /\ commands_served clk (protectedHandler parse_unverified time_json rw r) w = O.
Proof.
  unfold protectedHandler, contextGetUser.
  destruct (userContext r) as [user|]; cbn [run fst snd commands_served].
  2:{ split; [|split; reflexivity]. split; [intros _; left; reflexivity | eauto]. }
  destruct (Split_space (Authorization r)) as [|a [|tokenStr rest]];
    cbn [run fst snd length nth commands_served].
  - split; [|split; reflexivity].
    split; [intros _; right; left; lia | eauto].
  - split; [|split; reflexivity].
    split; [intros _; right; left; lia | eauto].
  - destruct (parse_unverified tokenStr) as [t|] eqn:Hparse;
      cbn [run fst snd commands_served].
    2:{ split; [|split; reflexivity]. split; [intros [msg [=]]|].
        intros [[=]|[Hlen|[_ (t & exp & [=] & _)]]]. lia. }
    destruct (jwt.ExpiresAt (jwt.Claims t)) as [exp|] eqn:Hexp;
      cbn [run fst snd commands_served].
    2:{ split; [|split; reflexivity]. split; [intros [msg [=]]|].
        intros [[=]|[Hlen|[_ (t' & exp & [= <-] & Hexp')]]]; [lia | congruence]. }
    destruct user as [| |u]; cbn [user_PhoneNumber run fst snd commands_served].
    + split; [|split; reflexivity]. split; [|eauto].
      intros _. right. right. split; [reflexivity|]. exists t, exp. split; [reflexivity | exact Hexp].
    + split; [|split; reflexivity]. split; [intros [msg [=]]|].
      intros [[=]|[Hlen|[[=] _]]]. lia.
    + split; [|split; reflexivity]. split; [intros [msg [=]]|].
      intros [[=]|[Hlen|[[=] _]]]. lia.
Qed.

End ProtectedAlone.

Lemma cut_space_positive_bits (p : positive) : cut_space (positive_bits p) = None.
Proof.
  induction p as [p IH|p IH|]; cbn [positive_bits cut_space]; [| |reflexivity];
    rewrite IH; reflexivity.
Qed.

Section IssuedThenProtected.

Variable HMAC : jwt.SigningMethod -> string -> jwt.RegisteredClaims -> string.
Variable compact : jwt.Token -> string.
Variable parse_compact parse_unverified : string -> option jwt.Token.
Variable time_json : Z -> string.
Variable jwtSecret : string.

(** X16.  A token issued for an existing user, sent to the protected
    route before its expiry, is answered 200 with the phone number of
    that user and, as [expires_at], the issue instant plus the time to
    live, rounded down to the second.  For this the compact form must
    decode to the token it was made from and must not contain a space. *)
Theorem issued_token_at_protected_route (userID ttl : Z) (clk clk' : nat -> Z)
    (w0 w : world) (rw : ResponseWriter) (u : Postgres.User) :
  (forall t, parse_compact (compact t) = Some t) ->
  (forall t, jwt.Claims <$> parse_unverified (compact t) = Some (jwt.Claims t)) ->
  (forall t, cut_space (compact t) = None) ->
  int64_min <= userID <= int64_max ->
  Postgres.select_by_id userID (models w) = Some u ->
  clk' O < jwt.NewNumericDate (clk O + ttl) ->
  let token := fst (fst (run clk (generateJWT HMAC compact jwtSecret userID ttl) w0)) in
  run clk' (authenticate HMAC parse_compact jwtSecret
              (requireAuthenticatedUser (protectedHandler parse_unverified time_json))
              rw (mkRequest ("Bearer " +:+ token) None)) w
  = (Done (writeJSON (Header_Add "Vary" "Authorization" rw) StatusOK
             [("message", JString ("Hello " +:+ Postgres.PhoneNumber u +:+ "!"));
              ("phone", JString (Postgres.PhoneNumber u));
              ("expires_at", JString (time_json (jwt.NewNumericDate (clk O + ttl))))]),
     w).
Proof.
  intros Hinv Hunverified Hspace Hrange Huser Hvalid token. subst token.
  rewrite generateJWT_issued. cbn [fst].
  pose proof (authenticate_issued HMAC compact parse_compact jwtSecret Hinv
                clk' (clk O) userID ttl w
                (requireAuthenticatedUser (protectedHandler parse_unverified time_json))
                rw None Hrange) as Hauth.
  cbv zeta in Hauth. rewrite Hauth. clear Hauth.
  match goal with |- context [compact ?t] => set (tok := t) end.
  apply Z.ltb_lt in Hvalid. rewrite Hvalid, Huser.
  unfold requireAuthenticatedUser, protectedHandler, contextGetUser, contextSetUser.
  cbn [userContext Authorization data.IsAnonymous].
  rewrite Split_space_Bearer, (Split_space_no_space _ (Hspace tok)).
  specialize (Hunverified tok).
  destruct (parse_unverified (compact tok)) as [t|]; [|discriminate].
  injection Hunverified as ->. reflexivity.
Qed.

End IssuedThenProtected.

(** ** Listing users *)

Lemma wrap_int64_id (z : Z) : int64_min <= z <= int64_max -> wrap_int64 z = z.
Proof.
  unfold wrap_int64, int64_min, int64_max. intros Hz.
  rewrite Z.mod_small by lia. lia.
Qed.

Lemma atoiDefault_FormatInt (i def : Z) :
  int64_min <= i <= int64_max -> atoiDefault (FormatInt i) def = i.
Proof.
  intros Hrange. unfold atoiDefault, Atoi.
  pose proof (ParseInt_FormatInt i Hrange) as Hparse.
  destruct (String.eqb_spec (FormatInt i) EmptyString) as [Hempty|_];
    [rewrite Hempty in Hparse; discriminate|].
  rewrite Hparse. reflexivity.
Qed.

Lemma In_firstn_list {A : Type} (n : nat) (l : list A) (x : A) :
  In x (firstn n l) -> In x l.
Proof.
  intros H. rewrite <- (firstn_skipn n l). apply in_or_app. left. exact H.
Qed.

Lemma In_skipn_list {A : Type} (n : nat) (l : list A) (x : A) :
  In x (skipn n l) -> In x l.
Proof.
  intros H. rewrite <- (firstn_skipn n l). apply in_or_app. right. exact H.
Qed.

(** The page and the page size the handler passes on. *)
Lemma page_clamped (page : Z) : 1 <= (if page <? 1 then 1 else page).
Proof. destruct (Z.ltb_spec page 1); lia. Qed.

Lemma pageSize_clamped (n : Z) :
  1 <= (if (if n <? 1 then 20 else n) >? 100 then 100 else (if n <? 1 then 20 else n)) <= 100.
Proof.
  destruct (Z.ltb_spec n 1); [cbn; lia|].
  rewrite Z.gtb_ltb. destruct (Z.ltb_spec 100 n); lia.
Qed.

Section ListingProperties.

Variable ILIKE : string -> string -> bool.
Variable scan : list Postgres.User -> list Postgres.User.
Variable TrimSpace : string -> string.

Lemma handleListUsers_run (q page page_size : string) (t : Postgres.users_table) :
  forall p s,
    p = (if atoiDefault page 1 <? 1 then 1 else atoiDefault page 1) ->
    s = (if (if atoiDefault page_size 20 <? 1 then 20 else atoiDefault page_size 20) >? 100
         then 100
         else (if atoiDefault page_size 20 <? 1 then 20 else atoiDefault page_size 20)) ->
    handleListUsers ILIKE scan TrimSpace q page page_size t =
      if wrap_int64 ((p - 1) * s) <? 0
      then ErrorReply StatusInternalServerError "failed to fetch users"
      else
        let matching := List_where ILIKE scan (mkUserFilter (TrimSpace q) p s) t in
        let items := firstn (Z.to_nat s) (skipn (Z.to_nat (wrap_int64 ((p - 1) * s))) matching) in
        JSONReply StatusOK
          (mkUsersListResponse items p s
             (match items with [] => 0 | _ :: _ => Z.of_nat (length matching) end)).
Proof.
  intros p s Hp Hs. unfold handleListUsers, UserModel_List. rewrite <- Hs, <- Hp.
  cbn [PageSize Page].
  pose proof (pageSize_clamped (atoiDefault page_size 20)) as Hsize. rewrite <- Hs in Hsize.
  destruct (Z.ltb_spec s 0); [lia|].
  destruct (wrap_int64 ((p - 1) * s) <? 0); reflexivity.
Qed.

Hypothesis scan_rows : forall l, Permutation (scan l) l.

Lemma List_where_rows (f : UserFilter) (t : Postgres.users_table) :
  (forall u, In u (List_where ILIKE scan f t) -> In u (Postgres.rows t))
  /\ (length (List_where ILIKE scan f t) <= length (Postgres.rows t))%nat.
Proof.
  unfold List_where. pose proof (scan_rows (Postgres.rows t)) as Hperm.
  destruct (String.eqb (Q f) EmptyString).
  - split.
    + intros u Hu. exact (Permutation_in _ Hperm Hu).
    + rewrite (Permutation_length Hperm). lia.
  - split.
    + intros u Hu. apply filter_In in Hu as [Hu _]. exact (Permutation_in _ Hperm Hu).
    + rewrite <- (Permutation_length Hperm). apply List.filter_length_le.
Qed.

(** X17.  Every page [handleListUsers] answers with carries a page
    number of at least 1 and a page size between 1 and 100, whatever
    the query parameters say; it holds at most that many items, all of
    them rows of the table; its total is 0 when the page is empty, and
    otherwise the number of rows that match, which is at least the
    number of items and at most the number of rows. *)
Theorem handleListUsers_page (q page page_size : string) (t : Postgres.users_table)
    (status : Z) (resp : UsersListResponse) :
  handleListUsers ILIKE scan TrimSpace q page page_size t = JSONReply status resp ->
  status = StatusOK
  /\ 1 <= RespPage resp
  /\ 1 <= RespPageSize resp <= 100
  /\ Z.of_nat (length (Items resp)) <= RespPageSize resp
  /\ (forall u, In u (Items resp) -> In u (Postgres.rows t))
  /\ Total resp =
       match Items resp with
       | [] => 0
       | _ :: _ =>
           Z.of_nat (length (List_where ILIKE scan
                               (mkUserFilter (TrimSpace q) (RespPage resp) (RespPageSize resp))
                               t))
       end
  /\ Z.of_nat (length (Items resp)) <= Total resp <= Z.of_nat (length (Postgres.rows t)).
Proof.
  rewrite (handleListUsers_run q page page_size t _ _ eq_refl eq_refl).
  pose proof (page_clamped (atoiDefault page 1)) as Hpage.
  pose proof (pageSize_clamped (atoiDefault page_size 20)) as Hsize.
  set (p := if atoiDefault page 1 <? 1 then 1 else atoiDefault page 1) in *.
  set (s := if (if atoiDefault page_size 20 <? 1 then 20 else atoiDefault page_size 20) >? 100
            then 100
            else (if atoiDefault page_size 20 <? 1 then 20 else atoiDefault page_size 20)) in *.
  destruct (wrap_int64 ((p - 1) * s) <? 0); [discriminate|].
  cbv zeta. intros [= <- <-]. cbn [Items RespPage RespPageSize Total].
  destruct (List_where_rows (mkUserFilter (TrimSpace q) p s) t) as [Hin Hlen].
  set (matching := List_where ILIKE scan (mkUserFilter (TrimSpace q) p s) t) in *.
  set (items := firstn (Z.to_nat s) (skipn (Z.to_nat (wrap_int64 ((p - 1) * s))) matching)).
  assert (length items <= Z.to_nat s)%nat as Hitems by apply firstn_le_length.
  assert (length items <= length matching)%nat as Hsub.
  { unfold items. rewrite length_firstn, length_skipn. lia. }
  split; [reflexivity|]. split; [exact Hpage|]. split; [exact Hsize|].
  split; [lia|]. split.
  { intros u Hu. apply Hin. unfold items in Hu.
    apply (In_skipn_list (Z.to_nat (wrap_int64 ((p - 1) * s)))),
          (In_firstn_list (Z.to_nat s)).
    exact Hu. }
  split; [reflexivity|].
  destruct items as [|u0 items']; cbn [length] in *; lia.
Qed.


End ListingProperties.

(** X19.  Up to page 92233720368547759 the listing is always answered
    200.  From the next page on the offset no longer fits Go's int: with
    a page size of 100 the product wraps to a negative number, the
    query is refused, and the answer is 500. *)
Theorem handleListUsers_status (ILIKE : string -> string -> bool)
    (scan : list Postgres.User -> list Postgres.User) (TrimSpace : string -> string)
    (q : string) (t : Postgres.users_table) :
  (forall page page_size,
     atoiDefault page 1 <= 92233720368547759 ->
     reply_status (handleListUsers ILIKE scan TrimSpace q page page_size t) = StatusOK)
  /\ (forall p,
        92233720368547760 <= p <= 184467440737095517 ->
        handleListUsers ILIKE scan TrimSpace q (FormatInt p) "100" t
        = ErrorReply StatusInternalServerError "failed to fetch users").
Proof.
  split.
  - intros page page_size Hbound.
    rewrite (handleListUsers_run ILIKE scan TrimSpace q page page_size t _ _ eq_refl eq_refl).
    pose proof (page_clamped (atoiDefault page 1)) as Hpage.
    pose proof (pageSize_clamped (atoiDefault page_size 20)) as Hsize.
    set (p := if atoiDefault page 1 <? 1 then 1 else atoiDefault page 1) in *.
    set (s := if (if atoiDefault page_size 20 <? 1 then 20 else atoiDefault page_size 20)
                   >? 100
              then 100
              else (if atoiDefault page_size 20 <? 1 then 20 else atoiDefault page_size 20))
      in *.
    assert (p <= 92233720368547759) as Hp
      by (unfold p; destruct (Z.ltb_spec (atoiDefault page 1) 1); lia).
    rewrite wrap_int64_id by (unfold int64_min, int64_max; nia).
    destruct (Z.ltb_spec ((p - 1) * s) 0); [nia | reflexivity].
  - intros p Hp.
    rewrite (handleListUsers_run ILIKE scan TrimSpace q (FormatInt p) "100" t p 100).
    + replace (wrap_int64 ((p - 1) * 100) <? 0) with true; [reflexivity|].
      symmetry. apply Z.ltb_lt. unfold wrap_int64, int64_min.
      pose proof (Z.mod_unique ((p - 1) * 100 - -9223372036854775808) (2 ^ 64) 1
                    ((p - 1) * 100 - 9223372036854775808)) as Hmod.
      rewrite <- Hmod; lia.
    + rewrite atoiDefault_FormatInt by (unfold int64_min, int64_max; lia).
      destruct (Z.ltb_spec p 1); [lia | reflexivity].
    + reflexivity.
Qed.

(** ** What a request for a code is answered with *)

(** X20.  For a phone number whose own key holds no counter, the answer
    of [handleRequestOTP] is decided by the rate-limit key alone: 200
    when there is no live counter or the incremented counter is at most
    3, 429 when it is more, and 500 when the key holds a hash or a
    counter at the int64 limit. *)
Theorem handleRequestOTP_status (entropy : Byte.byte * Byte.byte) (clk : nat -> Z)
    (rw : ResponseWriter) (phone : string) (w : world) :
  phone <> EmptyString ->
  Status rw = None ->
  (forall n ex, cache w !! phone <> Some (Redis.Entry (Redis.VInt n) ex)) ->
  served_status (fst (run clk (handleRequestOTP entropy rw (inr phone)) w)) =
    Some match Redis.lookup_live (Redis.mstime (clk O)) (rate_limit_key phone) (cache w) with
         | None => StatusOK
         | Some (Redis.Entry (Redis.VInt n) _) =>
             if n <? int64_max
             then (if n + 1 <=? otpRateLimitMax then StatusOK else StatusTooManyRequests)
             else StatusInternalServerError
         | Some (Redis.Entry (Redis.VHash _) _) => StatusInternalServerError
         end.
Proof.
  intros Hphone Hrw Hslot.
  assert (fst (run (fun i => clk (S i)) (storeOTPInRedis phone (generateOTP entropy))
                 (snd (run clk (allowOTPRequest phone) w))) = None) as Hstore.
  { rewrite storeOTPInRedis_run. unfold Redis.HSET, Redis.lookup_live.
    rewrite allowOTPRequest_frame
      by (intros Heq; exact (rate_limit_key_not_phone phone (eq_sym Heq))).
    destruct (cache w !! phone) as [[[n|h] ex]|] eqn:Hk.
    - contradiction (Hslot n ex). reflexivity.
    - destruct (Redis.expired _ _); reflexivity.
    - reflexivity. }
  rewrite handleRequestOTP_run by exact Hphone. cbv zeta. rewrite Hstore.
  rewrite allowOTPRequest_script.
  unfold Redis.otpRateLimitScript, Redis.EXISTS, Redis.INCR.
  destruct (Redis.lookup_live _ _ _) as [[[n|h] ex]|]; cbn [Z.eqb].
  - destruct (n <? int64_max); cbn [fst snd negb length Nat.eqb nth].
    + change 3 with otpRateLimitMax.
      destruct (n + 1 <=? otpRateLimitMax); cbn [negb fst served_status].
      * apply writeJSON_status. exact Hrw.
      * apply errorResponse_status. exact Hrw.
    + cbn [served_status]. apply errorResponse_status. exact Hrw.
  - cbn [fst snd served_status]. apply errorResponse_status. exact Hrw.
  - cbn [fst snd negb length Nat.eqb nth served_status Z.leb Z.compare Pos.compare
           Pos.compare_cont].
    apply writeJSON_status. exact Hrw.
Qed.

(** * The further properties at concrete inputs *)

(** Two registrations of one phone number, interleaved. *)
Lemma run_pool_world_consistent_witness :
  world_consistent
    (snd (fst (run_pool [(0%nat, 0); (1%nat, 1000000); (0%nat, 2000000); (1%nat, 3000000)]
                 [createUserIfNotExists "+1234567890"; createUserIfNotExists "+1234567890"]
                 empty_world))).
Proof.
  apply run_pool_world_consistent. split.
  - intros k n ex Hk. unfold empty_world in Hk. cbn [cache] in Hk.
    rewrite lookup_empty in Hk. discriminate Hk.
  - split; [constructor|]. split; constructor.
Defined.

(** After three requests in a window the fourth is answered 429. *)
Lemma handleRequestOTP_limited_witness :
  let w3 := snd (serve "+1234567890" [0; 1000000000; 2000000000] empty_world) in
  served_status
    (fst (run (instants 3000000000 [])
            (handleRequestOTP (Byte.x2a, Byte.x00) blank (inr "+1234567890")) w3))
  = Some StatusTooManyRequests.
Proof.
  intros w3.
  destruct (handleRequestOTP_limited (Byte.x2a, Byte.x00) (instants 3000000000 []) blank
              "+1234567890" w3 3 (Some 600000)) as [Hrun _].
  - discriminate.
  - vm_compute. reflexivity.
  - unfold otpRateLimitMax, int64_max. lia.
  - rewrite Hrun. reflexivity.
Defined.

(** The code of a first request is accepted a minute later. *)
Lemma requested_code_verifies_witness :
  let clk := instants 0 [1000000; 2000000] in
  served_status
    (fst (run (instants 60000000000 [])
            (handleVerifyOTP demo_HMAC demo_compact "secret" blank
               (inr (mkVerifyOTPReq "+1234567890" (generateOTP (Byte.x2a, Byte.x00)))))
            (snd (run clk (handleRequestOTP (Byte.x2a, Byte.x00) blank (inr "+1234567890"))
                    empty_world))))
  = Some StatusOK.
Proof.
  intros clk.
  pose proof (requested_code_verifies demo_HMAC demo_compact "secret" (Byte.x2a, Byte.x00)
                clk (instants 60000000000 []) blank blank "+1234567890" empty_world) as H.
  rewrite H.
  - vm_compute. reflexivity.
  - discriminate.
  - reflexivity.
  - reflexivity.
  - vm_compute. reflexivity.
  - intros v e He. vm_compute in He. discriminate He.
Defined.

(** The record of [challenge_world] runs out at millisecond 120001;
    a store whose [HSET] is served then and whose [EXPIRE] a
    millisecond later loses its code. *)
Lemma requested_code_lost_in_gap_witness :
  let clk := instants 120000000000 [120001000000; 120002000000] in
  let request := handleRequestOTP (Byte.x2a, Byte.x00) blank (inr "+1234567890") in
  served_status (fst (run clk request challenge_world)) = Some StatusOK
  /\ served_status
       (fst (run (instants 120003000000 [])
               (handleVerifyOTP demo_HMAC demo_compact "secret" blank
                  (inr (mkVerifyOTPReq "+1234567890" (generateOTP (Byte.x2a, Byte.x00)))))
               (snd (run clk request challenge_world))))
     = Some StatusUnauthorized.
Proof.
  intros clk request.
  apply (requested_code_lost_in_gap demo_HMAC demo_compact "secret" (Byte.x2a, Byte.x00)
           clk (instants 120003000000 []) blank blank "+1234567890" challenge_world
           {["otp" := "0042"]} 120001).
  - discriminate.
  - reflexivity.
  - reflexivity.
  - vm_compute. reflexivity.
  - vm_compute. reflexivity.
  - vm_compute. split; [discriminate | reflexivity].
  - vm_compute. discriminate.
Defined.

(** A challenge pending for the phone number spelled rl:otp:+1234567890
    blocks the requests of +1234567890. *)
Lemma handleRequestOTP_key_collision_witness :
  let w := snd (run (instants 0 [1000000])
                  (storeOTPInRedis "rl:otp:+1234567890" "0042") empty_world) in
  run (instants 1000000000 [])
      (handleRequestOTP (Byte.x2a, Byte.x00) blank (inr "+1234567890")) w
  = (Done (errorResponse blank StatusInternalServerError "rate limit error"), w).
Proof.
  intros w.
  apply (handleRequestOTP_key_collision (Byte.x2a, Byte.x00) (instants 1000000000 []) blank
           "+1234567890" "0042" w).
  - discriminate.
  - vm_compute. reflexivity.
Defined.

(** A store under the rate-limit key of a phone number that has just
    asked for a code. *)
Lemma storeOTPInRedis_on_counter_witness :
  let w := snd (run (instants 0 []) (allowOTPRequest "+1234567890") empty_world) in
  snd (run (instants 1000000000 [1001000000])
         (storeOTPInRedis "rl:otp:+1234567890" "0042") w) = w.
Proof.
  intros w.
  destruct (storeOTPInRedis_on_counter (instants 1000000000 [1001000000])
              "rl:otp:+1234567890" "0042" w 1 (Some 600000)) as [Hrun _].
  - vm_compute. reflexivity.
  - rewrite Hrun. reflexivity.
Defined.

(** The first user of an empty table gets id 1 and is found under it. *)
Lemma registered_user_is_found_witness :
  let w := snd (run (instants 0 [1000000]) (createUserIfNotExists "+1234567890")
                  empty_world) in
  fst (run (instants 2000000 []) (data.GetByID 1) w)
  = (Some (Postgres.mkUser 1 0 "+1234567890"), None).
Proof.
  intros w.
  destruct (registered_user_is_found (instants 0 [1000000]) (instants 2000000 [])
              (instants 2000000 []) "+1234567890" empty_world
              (Postgres.mkUser 1 0 "+1234567890")) as [Hid _].
  - split; [constructor|]. split; constructor.
  - reflexivity.
  - exact (f_equal fst Hid).
Defined.

Lemma getSingleUser_registered_witness :
  let w := snd (run (instants 0 [1000000]) (createUserIfNotExists "+1234567890")
                  empty_world) in
  run (instants 2000000 []) (getSingleUser "1") w
  = (JSONReply StatusOK (data.Ptr (Postgres.mkUser 1 0 "+1234567890")), w).
Proof.
  intros w.
  apply (getSingleUser_registered (instants 0 [1000000]) (instants 2000000 [])
           "+1234567890" empty_world (Postgres.mkUser 1 0 "+1234567890")).
  - split; [constructor|]. split; constructor.
  - vm_compute. split; discriminate.
  - reflexivity.
Defined.

(** A header without a token: the route answers 401, it does not panic. *)
Lemma protected_route_never_panics_witness :
  exists rw',
    run (instants 0 [])
        (authenticate demo_HMAC demo_parse_compact "secret"
           (requireAuthenticatedUser (protectedHandler demo_parse_compact demo_time_json))
           blank (mkRequest "Bearer" None))
        world_with_user_7
    = (Done rw', world_with_user_7)
    /\ (Status rw' = Some StatusOK \/ Status rw' = Some StatusUnauthorized).
Proof.
  apply (protected_route_never_panics demo_HMAC demo_parse_compact "secret"
           demo_parse_compact demo_time_json (instants 0 []) blank
           (mkRequest "Bearer" None) world_with_user_7).
  reflexivity.
Defined.

(** A token issued to user 7 for 48 hours, sent an hour later. *)
Lemma issued_token_at_protected_route_witness :
  let token :=
    fst (fst (run (instants 0 [])
                (generateJWT demo_HMAC demo_compact "secret" 7 (48 * GoTime.Hour))
                empty_world)) in
  run (instants (1 * GoTime.Hour) [])
      (authenticate demo_HMAC demo_parse_compact "secret"
         (requireAuthenticatedUser (protectedHandler demo_parse_compact demo_time_json))
         blank (mkRequest ("Bearer " +:+ token) None))
      world_with_user_7
  = (Done (writeJSON (Header_Add "Vary" "Authorization" blank) StatusOK
             [("message", JString "Hello +1234567890!");
              ("phone", JString "+1234567890");
              ("expires_at", JString "172800000000000")]),
     world_with_user_7).
Proof.
  intros token.
  apply (issued_token_at_protected_route demo_HMAC demo_compact demo_parse_compact
           demo_parse_compact demo_time_json "secret" 7 (48 * GoTime.Hour)
           (instants 0 []) (instants (1 * GoTime.Hour) []) empty_world world_with_user_7
           blank (Postgres.mkUser 7 0 "+1234567890")).
  - exact demo_parse_compact_inv.
  - intros t. rewrite demo_parse_compact_inv. reflexivity.
  - intros t. apply cut_space_positive_bits.
  - vm_compute. split; discriminate.
  - reflexivity.
  - vm_compute. reflexivity.
Defined.

(** The first page of size 2 of the users whose phone number contains 123. *)
Lemma handleListUsers_page_witness :
  let resp := mkUsersListResponse
                [Postgres.mkUser 1 0 "+1234567890"; Postgres.mkUser 2 0 "+1234567891"]
                1 2 2 in
  handleListUsers demo_ILIKE (fun l => l) (fun s => s) "123" "1" "2" three_users
  = JSONReply StatusOK resp
  /\ Z.of_nat (length (Items resp)) <= Total resp
     <= Z.of_nat (length (Postgres.rows three_users)).
Proof.
  intros resp.
  assert (handleListUsers demo_ILIKE (fun l => l) (fun s => s) "123" "1" "2" three_users
          = JSONReply StatusOK resp) as Hreply by (vm_compute; reflexivity).
  split; [exact Hreply|].
  apply (handleListUsers_page demo_ILIKE (fun l => l) (fun s => s)
           (fun l => Permutation_refl l) "123" "1" "2" three_users StatusOK resp Hreply).
Defined.


(** The first request for a phone number is answered 200. *)
Lemma handleRequestOTP_status_witness :
  served_status
    (fst (run (instants 0 [1000000; 2000000])
            (handleRequestOTP (Byte.x2a, Byte.x00) blank (inr "+1234567890")) empty_world))
  = Some StatusOK.
Proof.
  apply (handleRequestOTP_status (Byte.x2a, Byte.x00) (instants 0 [1000000; 2000000]) blank
           "+1234567890" empty_world).
  - discriminate.
  - reflexivity.
  - intros n ex H. vm_compute in H. discriminate H.
Defined.
